(** * pubchem-crawler/crawl.py: mirror engine and extraction pipeline

  A shallow embedding of [PubchemLoader] (remote/local diff, download
  policy, whole-pass retry) and of [Extractor] (walk, gunzip, handler,
  cleanup), with the properties of the design document stated over it.

  Conventions.
  - [pathlib.PurePosixPath] values are records of a root flag and the
    list of components; [Path_of_string] is the constructor [Path(s)].
  - A Python [set] of names is a [gset string]; iterating a set uses
    [elements], an arbitrary but fixed order, as in Python.
  - The local file system is a finite map from paths to file contents
    (regular files only; directories are implicit).
  - Effects are threaded through a state-and-exception monad over a
    [World]: the file system, the script of transport faults still to
    happen, and the trace of observable events. *)

From Stdlib Require Import String Ascii List Arith Lia Bool.
From stdpp Require Import gmap strings list fin_maps sets.

Local Open Scope string_scope.
Local Open Scope list_scope.

(* ===================================================================== *)
(** ** Strings, as [str] methods use them *)
(* ===================================================================== *)

Module Str.

(** [s.split(sep)] for a one-character separator. *)
Fixpoint split_on (sep : ascii) (s : string) : list string :=
  match s with
  | EmptyString => [EmptyString]
  | String c s' =>
      if Ascii.eqb c sep then EmptyString :: split_on sep s'
      else match split_on sep s' with
           | [] => [String c EmptyString]
           | w :: ws => String c w :: ws
           end
  end.

(** [s.rfind(c)]: index of the last occurrence, [None] for Python's -1. *)
Fixpoint rfind (c : ascii) (s : string) : option nat :=
  match s with
  | EmptyString => None
  | String a s' =>
      match rfind c s' with
      | Some i => Some (S i)
      | None => if Ascii.eqb a c then Some 0 else None
      end
  end.

(** [s[i:]] *)
Fixpoint drop (i : nat) (s : string) : string :=
  match i, s with
  | 0, _ => s
  | S _, EmptyString => EmptyString
  | S i', String _ s' => drop i' s'
  end.

(** [s[:i]] *)
Fixpoint take (i : nat) (s : string) : string :=
  match i, s with
  | 0, _ => EmptyString
  | S _, EmptyString => EmptyString
  | S i', String a s' => String a (take i' s')
  end.

(** [s.endswith(suf)] *)
Definition endswith (s suf : string) : bool :=
  Nat.leb (String.length suf) (String.length s)
  && String.eqb (drop (String.length s - String.length suf) s) suf.

(** [s.startswith(c)] for one character. *)
Definition starts_with_char (c : ascii) (s : string) : bool :=
  match s with
  | EmptyString => false
  | String a _ => Ascii.eqb a c
  end.

(** [c in s] for one character. *)
Fixpoint has_char (c : ascii) (s : string) : bool :=
  match s with
  | EmptyString => false
  | String a s' => Ascii.eqb a c || has_char c s'
  end.

Definition upper_char (a : ascii) : ascii :=
  let n := nat_of_ascii a in
  if Nat.leb 97 n && Nat.leb n 122 then ascii_of_nat (n - 32) else a.

(** [s.upper()] on ASCII text. *)
Fixpoint upper (s : string) : string :=
  match s with
  | EmptyString => EmptyString
  | String a s' => String (upper_char a) (upper s')
  end.

End Str.

(* ===================================================================== *)
(** ** pathlib *)
(* ===================================================================== *)

Record Path := MkPath { root : bool; parts : list string }.

#[global] Instance Path_eq_dec : EqDecision Path.
Proof. solve_decision. Defined.

#[global] Instance Path_countable : Countable Path :=
inj_countable' (λ p, (root p, parts p)) (λ rp, MkPath rp.1 rp.2)
               (λ p, match p with MkPath _ _ => eq_refl end).

Module PurePath.

Definition slash : ascii := "/"%char.
Definition dot : ascii := "."%char.

(** A component kept by the parser: neither empty nor ["."]. *)
Definition keep_part (c : string) : bool :=
  negb (String.eqb c "") && negb (String.eqb c ".").

(** [Path(s)]: split on the separator, drop empty and ["."] components,
    remember a leading separator as the root. (POSIX keeps exactly two
    leading separators as a root of its own; no path of the program
    starts that way.) *)
Definition Path_of_string (s : string) : Path :=
  MkPath (Str.starts_with_char slash s)
         (List.filter keep_part (Str.split_on slash s)).

(** [str(p)] *)
Definition to_string (p : Path) : string :=
  match root p, parts p with
  | false, [] => "."
  | false, ps => String.concat "/" ps
  | true, ps => "/" +:+ String.concat "/" ps
  end.

(** [p.name]: the final component, [''] when there is none. *)
Definition name (p : Path) : string := List.last (parts p) "".

(** [p.parent] *)
Definition parent (p : Path) : Path :=
  MkPath (root p) (List.removelast (parts p)).

(** [p / q] for a path [q]: an absolute right operand replaces [p]. *)
Definition join (p q : Path) : Path :=
  if root q then q else MkPath (root p) (parts p ++ parts q).

(** [p / s] for a string [s]. *)
Definition join_str (p : Path) (s : string) : Path :=
  join p (Path_of_string s).

(** The [suffix] of a file name:
    [i = name.rfind('.'); name[i:] if 0 < i < len(name) - 1 else '']. *)
Definition suffix_of_name (nm : string) : string :=
  match Str.rfind dot nm with
  | Some i =>
      if Nat.ltb 0 i && Nat.ltb i (String.length nm - 1) then Str.drop i nm else ""
  | None => ""
  end.

(** [p.suffix] *)
Definition suffix (p : Path) : string := suffix_of_name (name p).

(** [p.with_suffix(suf)]; [None] is the [ValueError] of an empty name.
    (The checks on [suf] itself never fail for the two literals the
    program passes, [""] and [".gz.md5"].) *)
Definition with_suffix (p : Path) (suf : string) : option Path :=
  let nm := name p in
  if String.eqb nm "" then None
  else
    let old := suffix p in
    let stem := Str.take (String.length nm - String.length old) nm in
    Some (MkPath (root p) (List.removelast (parts p) ++ [stem +:+ suf])).

End PurePath.

Import PurePath.


(* ===================================================================== *)
(** ** Exceptions, events and the world *)
(* ===================================================================== *)

(** The exception classes the program names or can meet. *)
Inductive exn : Type :=
| FileExistsError
| FileNotFoundError
| error_temp          (* ftplib.error_temp: 4xx reply *)
| error_perm          (* ftplib.error_perm: 5xx reply *)
| EOFError
| BadGzipFile         (* gzip.BadGzipFile, an OSError *)
| IndexError
| ValueError
| KeyError
| KeyboardInterrupt.  (* a BaseException that is not an Exception *)

#[global] Instance exn_eq_dec : EqDecision exn.
Proof. solve_decision. Defined.

(** [str(err)], as it appears in a log line. *)
Definition exn_text (e : exn) : string :=
  match e with
  | FileExistsError => "FileExistsError"
  | FileNotFoundError => "FileNotFoundError"
  | error_temp => "error_temp"
  | error_perm => "error_perm"
  | EOFError => "EOFError"
  | BadGzipFile => "BadGzipFile"
  | IndexError => "IndexError"
  | ValueError => "ValueError"
  | KeyError => "KeyError"
  | KeyboardInterrupt => "KeyboardInterrupt"
  end.

Abbreviation bytes := (list Byte.byte).

Inductive level : Type := INFO | WARNING | ERROR.

#[global] Instance level_eq_dec : EqDecision level.
Proof. solve_decision. Defined.

(** What an observer of a run can see, in order. *)
Inductive event : Type :=
| EvConnect                              (* FTP.__enter__ *)
| EvClose                                (* FTP.__exit__ *)
| EvList (dir : string)                  (* ftp_.list(dir) *)
| EvGlob (dir : Path) (pattern : string) (* pth.glob(pattern) *)
| EvCreate (p : Path)                    (* open(p, "xb") succeeded *)
| EvRetr (remote : Path)                 (* ftp_.get(remote, file) *)
| EvUnlink (p : Path)                    (* p.unlink() *)
| EvSleep (seconds : nat)                (* time.sleep(seconds) *)
| EvLog (lvl : level) (msg : string) (args : list string) (* logging.<lvl>(msg, *args) *)
| EvHandler (p : Path).                  (* handler(p) *)

#[global] Instance event_eq_dec : EqDecision event.
Proof. solve_decision. Defined.

(** What a transport operation can raise: replies of the server
    ([ftplib] errors), a dropped or reset connection, an interrupt. *)
Inductive net_error : Type :=
| NetTemp        (* ftplib.error_temp *)
| NetPerm        (* ftplib.error_perm *)
| NetEOF         (* EOFError: the connection closed *)
| NetInterrupt.  (* KeyboardInterrupt *)

Definition exn_of_net (e : net_error) : exn :=
  match e with
  | NetTemp => error_temp
  | NetPerm => error_perm
  | NetEOF => EOFError
  | NetInterrupt => KeyboardInterrupt
  end.

(** One entry of the transport script: [None] lets the next transport
    operation succeed; [Some (e, k)] makes it raise [e], a transfer
    having written its first [k] bytes before. An exhausted script
    means no further fault. *)
Abbreviation fault := (option (net_error * nat)).

Record World := MkWorld {
  fs : gmap Path bytes;
  faults : list fault;
  trace : list event
}.

(** The remote server: what a listing returns and what a file holds. *)
Record Server := MkServer {
  srv_list : string → list string;
  srv_data : Path → bytes
}.

(* ===================================================================== *)
(** ** The state-and-exception monad *)
(* ===================================================================== *)

Inductive result (A : Type) : Type :=
| Ok (a : A)
| Raised (e : exn)
| OutOfFuel.

Arguments Ok {A} a.
Arguments Raised {A} e.
Arguments OutOfFuel {A}.

Definition M (A : Type) : Type := World → result A * World.

#[global] Instance M_ret : MRet M := λ A a w, (Ok a, w).

#[global] Instance M_bind : MBind M := λ A B f m w,
  match m w with
  | (Ok a, w') => f a w'
  | (Raised e, w') => (Raised e, w')
  | (OutOfFuel, w') => (OutOfFuel, w')
  end.

Definition raise {A} (e : exn) : M A := λ w, (Raised e, w).

Definition out_of_fuel {A} : M A := λ w, (OutOfFuel, w).

(** [try: m  except <classes>: h]; running out of fuel is not an
    exception and is never caught. *)
Definition try_except {A} (m : M A) (catches : exn → bool) (h : exn → M A) : M A :=
  λ w, match m w with
       | (Raised e, w') => if catches e then h e w' else (Raised e, w')
       | r => r
       end.

(** [try: m  finally: c] for a [c] that cannot fail. *)
Definition finally {A} (m : M A) (c : M unit) : M A :=
  λ w, match m w with
       | (r, w') => (r, (c w').2)
       end.

(** [for x in xs: body(x)] *)
Fixpoint for_each {A} (xs : list A) (body : A → M unit) : M unit :=
  match xs with
  | [] => mret tt
  | x :: xs' => body x ;; for_each xs' body
  end.

Definition emit (e : event) : M unit :=
  λ w, (Ok tt, MkWorld (fs w) (faults w) (trace w ++ [e])).

Definition get_fs : M (gmap Path bytes) := λ w, (Ok (fs w), w).

Definition put_fs (f : gmap Path bytes) : M unit :=
  λ w, (Ok tt, MkWorld f (faults w) (trace w)).

(** The outcome the script holds for the next transport operation. *)
Definition next_fault : M fault :=
  λ w, match faults w with
       | [] => (Ok None, w)
       | f :: rest => (Ok f, MkWorld (fs w) rest (trace w))
       end.

Definition log (lvl : level) (msg : string) (args : list string) : M unit :=
  emit (EvLog lvl msg args).

Definition sleep (seconds : nat) : M unit := emit (EvSleep seconds).

(* ===================================================================== *)
(** ** File-system primitives *)
(* ===================================================================== *)

(** [open(p, "xb")]: create exclusively, or [FileExistsError]. *)
Definition open_xb (p : Path) : M unit :=
  f ← get_fs;
  match f !! p with
  | Some _ => raise FileExistsError
  | None => put_fs (<[p := []]> f) ;; emit (EvCreate p)
  end.

(** [open(p, "wb")]: create or truncate. *)
Definition open_wb (p : Path) : M unit :=
  f ← get_fs; put_fs (<[p := []]> f).

(** [file.write(data)] on the file opened at [p]. *)
Definition write (p : Path) (data : bytes) : M unit :=
  f ← get_fs; put_fs (<[p := default [] (f !! p) ++ data]> f).

(** [p.unlink()] *)
Definition unlink (p : Path) : M unit :=
  f ← get_fs;
  match f !! p with
  | Some _ => put_fs (delete p f) ;; emit (EvUnlink p)
  | None => raise FileNotFoundError
  end.

(** [p.unlink(missing_ok=True)] *)
Definition unlink_missing_ok (p : Path) : M unit :=
  try_except (unlink p) (λ e, bool_decide (e = FileNotFoundError)) (λ _, mret tt).

(** [p.is_file()] *)
Definition is_file (p : Path) : M bool :=
  f ← get_fs; mret (bool_decide (is_Some (f !! p))).

(** [p.parent.mkdir(parents=True)] under [except FileExistsError: pass]:
    directories are implicit in the map, so both outcomes leave it as
    it is. *)
Definition mkdir_parents_exist_ok (d : Path) : M unit := mret tt.

(** The entries of directory [dir] whose name matches ["*." +:+ ext]
    (fnmatch on POSIX: any name ending in the dot and the extension). *)
Definition glob_fs (f : gmap Path bytes) (dir : Path) (ext : string) : list Path :=
  List.filter
    (λ p, bool_decide (parts p ≠ []) && bool_decide (parent p = dir)
          && Str.endswith (name p) ("." +:+ ext))
    (map_to_list f).*1.

(** [dir.glob("*." + ext)] *)
Definition glob (dir : Path) (ext : string) : M (list Path) :=
  f ← get_fs; emit (EvGlob dir ("*." +:+ ext)) ;; mret (glob_fs f dir ext).

(* ===================================================================== *)
(** ** Transport (ftpretty) *)
(* ===================================================================== *)

Section Transport.

Variable srv : Server.

(** [ftp_.list(dir)] *)
Definition ftp_list (dir : string) : M (list string) :=
  emit (EvList dir) ;;
  f ← next_fault;
  match f with
  | Some (e, _) => raise (exn_of_net e)
  | None => mret (srv_list srv dir)
  end.

(** [ftp_.get(remote, file)] with [file] the handle opened at [dest]:
    the bytes received are written as they come, so a transfer that
    fails leaves what it had written. *)
Definition ftp_get (remote dest : Path) : M unit :=
  emit (EvRetr remote) ;;
  f ← next_fault;
  match f with
  | Some (e, k) => write dest (take k (srv_data srv remote)) ;; raise (exn_of_net e)
  | None => write dest (srv_data srv remote)
  end.

(** [with FTP(...) as ftp_: body]: the session is closed on every exit
    path. *)
Definition with_FTP {A} (body : M A) : M A :=
  emit EvConnect ;; finally body (emit EvClose).

End Transport.

(* ===================================================================== *)
(** ** PubchemLoader *)
(* ===================================================================== *)

Record PubchemLoader := MkLoader {
  ftp : string;
  target : Path;
  fmt : string;
  target_dir : Path
}.

Definition dir_mapping : gmap string string := {[ "compounds" := "Compound" ]}.

(** Order make sense *)
Definition sup_extensions : list string := [".md5"; ".gz"].

(** [PubchemLoader.__init__(data, target_dir, fmt)] *)
Definition PubchemLoader_init (data target_dir_ fmt_ : string) : exn + PubchemLoader :=
  match dir_mapping !! data with
  | None => inl KeyError
  | Some d =>
      inr (MkLoader "ftp.ncbi.nlm.nih.gov"
                    (join_str (Path_of_string "pubchem") d)
                    (Str.upper fmt_)
                    (Path_of_string target_dir_))
  end.

(** [PubchemLoader.get_names]: the set of final path components. *)
Definition get_names (dir_ : list Path) : gset string :=
  list_to_set (name <$> dir_).

(** The base names of a listing that belong to class [ext_]:
    [set(filter(lambda x: Path(x).suffix == f".{ext_}", get_names(l)))]. *)
Definition class_sources (source_file_list : list string) (ext_ : string) : gset string :=
  filter (λ x, suffix (Path_of_string x) = "." +:+ ext_)
         (get_names (Path_of_string <$> source_file_list)).

Section Loader.

Variable self : PubchemLoader.
Variable srv : Server.

(** [PubchemLoader.__checksum]
    todo: create checksum functionality *)
Definition checksum (target_file : Path) : M bool :=
  match with_suffix target_file ".gz.md5" with
  | None => raise ValueError
  | Some sidecar => _ ← is_file sidecar; mret true
  end.

(** The base names of class [ext_] present in the local directory that
    mirrors [source_dir]: [get_names(pth.glob(f"*.{ext_}"))]. *)
Definition class_targets (f : gmap Path bytes) (source_dir ext_ : string) : gset string :=
  get_names (glob_fs f (join_str (target_dir self) source_dir) ext_).

(** The names to fetch: [sources - targets]. *)
Definition diff_names (f : gmap Path bytes) (source_dir : string)
    (source_file_list : list string) (ext_ : string) : gset string :=
  class_sources source_file_list ext_ ∖ class_targets f source_dir ext_.

(** [PubchemLoader.__diff], with the generator run to its end: the
    local directory is scanned once, when the first target is asked
    for, and nothing is read after that. *)
Definition diff (source_dir : string) (source_file_list : list string)
    (ext_ : string) : M (list Path) :=
  let pth := join_str (target_dir self) source_dir in
  found ← glob pth ext_;
  let targets := get_names found in
  let sources := class_sources source_file_list ext_ in
  let diff_names := sources ∖ targets in
  if bool_decide (diff_names ≠ ∅) then   (* if diff_names: *)
    match source_file_list with
    | [] => raise IndexError
    | first :: _ =>
        let ftp_dir := parent (Path_of_string first) in
        mret ((λ name, join_str ftp_dir name) <$> elements diff_names)
    end
  else mret [].

(** [PubchemLoader.__download_file]; [fuel] bounds the depth of the
    Python call stack. *)
Fixpoint download_file (fuel : nat) (filename : Path) (tries : nat) : M unit :=
  match fuel with
  | 0 => out_of_fuel
  | S fuel' =>
      let pth := join (target_dir self) filename in
      if bool_decide (suffix pth ∈ sup_extensions) then
        mkdir_parents_exist_ok (parent pth) ;;
        try_except
          (open_xb pth ;;
           ftp_get srv filename pth ;;
           log INFO "Downloaded %s" [to_string pth])
          (λ e, bool_decide (e = FileExistsError))
          (λ _,
             if bool_decide (suffix pth = ".md5") then
               (* always reload md5 files *)
               unlink pth ;;
               download_file fuel' filename (tries + 1)
             else
               ok ← checksum pth;
               if negb ok then download_file fuel' filename (tries + 1)
               else log ERROR "File %s already downloaded" [to_string filename])
      else mret tt
  end.

(** [f"{self.target}/CURRENT-Full/{self.fmt}"] *)
Definition source_dir_of : string :=
  to_string (target self) +:+ "/CURRENT-Full/" +:+ fmt self.

(** The body of the download loop of [full_download]: one target is
    downloaded inside the [try]; [retry] is the call
    [self.full_download()] of the handler. *)
Definition download_step (fuel : nat) (retry : M unit) (remote_file : Path) : M unit :=
  try_except
    (log INFO "start download %s" [to_string remote_file] ;;
     download_file fuel remote_file 0)
    (λ _, true)   (* (ftplib.error_temp, EOFError, BaseException) *)
    (λ err_,
       log WARNING "%s, sleeping 5 seconds" [exn_text err_] ;;
       sleep 5 ;;
       log WARNING "retry..." [] ;;
       retry).

(** The work of [full_download] for one extension class. *)
Definition sync_class (fuel : nat) (retry : M unit) (source_dir ext_ : string) : M unit :=
  listing ← ftp_list srv source_dir;
  remote_files ← diff source_dir listing (Str.drop 1 ext_);
  for_each remote_files (download_step fuel retry).

(** [PubchemLoader.full_download]; [fuel] bounds the depth of the
    Python call stack. *)
Fixpoint full_download (fuel : nat) : M unit :=
  match fuel with
  | 0 => out_of_fuel
  | S fuel' =>
      let source_dir := source_dir_of in
      with_FTP
        (for_each sup_extensions
           (sync_class fuel' (full_download fuel') source_dir))
  end.

End Loader.

(** [download(arg_ns)] *)
Definition download (srv : Server) (pubchem_dir : string) (fuel : nat) : M unit :=
  match PubchemLoader_init "compounds" pubchem_dir "sdf" with
  | inl e => raise e
  | inr loader => full_download loader srv fuel
  end.

(* ===================================================================== *)
(** ** Extractor *)
(* ===================================================================== *)

Record Extractor := MkExtractor { chembl_dir : Path }.

(** [p] is a file strictly below the directory [d]: [d] is a proper
    prefix of the directory of [p]. *)
Definition below (d p : Path) : bool :=
  bool_decide (root p = root d)
  && bool_decide (parts d `prefix_of` List.removelast (parts p))
  && bool_decide (parts p ≠ [])
  && negb (bool_decide (parent p = d)).

(** The subdirectory of [d] on the way to [p]. *)
Definition child_towards (d p : Path) : Path :=
  MkPath (root d) (take (S (length (parts d))) (parts p)).

(** [os.walk(top)] (top-down), reduced to what the loop reads: each
    directory of the tree with the names of its files, a directory
    before its subdirectories. Directories are those that lead to a
    file of [files]; [depth] bounds the depth of the tree. The listings
    are those at the start of the walk: the loop body creates and
    removes files only in the directory whose listing it is reading,
    which [os.walk] has already taken. The order of the entries of one
    directory is that of the map, as arbitrary as that of [scandir]. *)
Fixpoint walk_from (depth : nat) (files : list Path) (d : Path)
    : list (Path * list string) :=
  let here := List.filter (λ p, bool_decide (parts p ≠ []) && bool_decide (parent p = d)) files in
  let subdirs := remove_dups (child_towards d <$> List.filter (below d) files) in
  (d, name <$> here)
  :: match depth with
     | 0 => []
     | S depth' => mjoin (walk_from depth' files <$> subdirs)
     end.

Definition walk (f : gmap Path bytes) (top : Path) : list (Path * list string) :=
  let files := (map_to_list f).*1 in
  walk_from (list_max (length ∘ parts <$> files)) files top.

(** [Extractor.cast_path] *)
Definition cast_path (root_ : Path) (files : list string) : list Path :=
  (λ file, join_str root_ file) <$> files.

Section Extract.

(** [gzip.open(file, "rb").read()] on the bytes of [file]: the
    decompressed content, or the exception the decoder raises. *)
Variable gzip_read : bytes → exn + bytes.

(** The handler, as far as the pipeline observes it: given the path and
    the file system, it returns or raises. *)
Variable handler : Path → gmap Path bytes → option exn.

Variable self : Extractor.

(** [Extractor.__gunzip_content] *)
Definition gunzip_content (file : Path) : M Path :=
  match with_suffix file "" with
  | None => raise ValueError
  | Some target_file =>
      open_wb target_file ;;
      f ← get_fs;
      match f !! file with
      | None => raise FileNotFoundError
      | Some packed =>
          match gzip_read packed with
          | inl e => raise e
          | inr data => write target_file data ;; mret target_file
          end
      end
  end.

(** [handler(extracted)] *)
Definition call_handler (extracted : Path) : M unit :=
  emit (EvHandler extracted) ;;
  f ← get_fs;
  match handler extracted f with
  | Some e => raise e
  | None => mret tt
  end.

(** The body of the walk for one file. *)
Definition extract_file (file : Path) : M unit :=
  if bool_decide (suffix file = ".gz") then
    try_except
      (extracted ← gunzip_content file;
       call_handler extracted ;;
       unlink_missing_ok extracted)
      (λ e, bool_decide (e = EOFError))
      (λ err_, log ERROR "File %s: %s" [to_string file; exn_text err_])
  else mret tt.

(** [Extractor.extract] *)
Definition extract : M unit :=
  f ← get_fs;
  for_each (walk f (chembl_dir self)) (λ '(root_, files),
    for_each (cast_path root_ files) extract_file).

End Extract.

(** A stand-in for the gzip decoder, with its three behaviours: a
    stream that does not start with the magic bytes [1f 8b] is refused
    ([BadGzipFile]); after the magic, one byte gives the length of the
    payload; a stream that ends before the payload is complete raises
    [EOFError]. (An empty file decodes to nothing, as in [gzip].) *)
Definition gzip_stored (packed : bytes) : exn + bytes :=
  match packed with
  | [] => inr []
  | Byte.x1f :: Byte.x8b :: n :: payload =>
      let len := Byte.to_nat n in
      if Nat.leb len (length payload) then inr (take len payload)
      else inl EOFError
  | [Byte.x1f; Byte.x8b] => inl EOFError
  | [Byte.x1f] => inl EOFError
  | _ => inl BadGzipFile
  end.

(* ===================================================================== *)
(** ** Concrete mirrors and servers used in the examples *)
(* ===================================================================== *)

Module Scenario.

Definition b (s : string) : bytes := list_byte_of_string s.

(** The loader that [download] builds for [--pubchem-dir mirror]. *)
Definition loader : PubchemLoader :=
  MkLoader "ftp.ncbi.nlm.nih.gov" (Path_of_string "pubchem/Compound") "SDF"
           (Path_of_string "mirror").

Definition sd : string := "pubchem/Compound/CURRENT-Full/SDF".

(** The remote path and the local destination of a file of the dataset. *)
Definition remote (nm : string) : Path := Path_of_string (sd +:+ "/" +:+ nm).
Definition local (nm : string) : Path := Path_of_string ("mirror/" +:+ sd +:+ "/" +:+ nm).

(** A server whose directory lists [names] with the directory prefix
    and whose files hold ["remote " ++ name]. *)
Definition server (names : list string) : Server :=
  MkServer (λ d, (λ nm, d +:+ "/" +:+ nm) <$> names)
           (λ p, b ("remote " +:+ name p)).

Definition world (files : list (Path * bytes)) (script : list fault) : World :=
  MkWorld (list_to_map files) script [].

End Scenario.

(* ===================================================================== *)
(** ** Notions used in the statements *)
(* ===================================================================== *)

(** The world after the events [evs] have been observed. *)
Definition emitted (w : World) (evs : list event) : World :=
  MkWorld (fs w) (faults w) (trace w ++ evs).

(** What the generator yields, as a function of the local state. *)
Definition diff_targets (self : PubchemLoader) (f : gmap Path bytes)
    (sd : string) (l : list string) (ext_ : string) : list Path :=
  match l with
  | [] => []
  | first :: _ =>
      (λ n, join_str (parent (Path_of_string first)) n)
        <$> elements (diff_names self f sd l ext_)
  end.

(** The world after [p.unlink()]. *)
Definition unlinked (w : World) (p : Path) : World :=
  MkWorld (delete p (fs w)) (faults w) (trace w ++ [EvUnlink p]).

(** What the exclusive create and the transfer do when the destination
    [dest] is free: an undisturbed transfer stores the remote bytes and
    logs the download; a fault leaves the first [k] bytes received and
    raises the transport error. *)
Definition fetch_result (srv : Server) (remote dest : Path) (w : World)
    : result unit * World :=
  match faults w with
  | Some (e, k) :: rest =>
      (Raised (exn_of_net e),
       MkWorld (<[dest := take k (srv_data srv remote)]> (fs w)) rest
               (trace w ++ [EvCreate dest; EvRetr remote]))
  | script =>
      (Ok tt,
       MkWorld (<[dest := srv_data srv remote]> (fs w)) (tail script)
               (trace w ++ [EvCreate dest; EvRetr remote;
                            EvLog INFO "Downloaded %s" [to_string dest]]))
  end.

(** The listing names files of the listed directory itself, with the
    directory prefix: every entry's parent is the source directory. *)
Definition flat_listing (self : PubchemLoader) (srv : Server) : Prop :=
  ∀ x, x ∈ srv_list srv (source_dir_of self) →
       parent (Path_of_string x) = Path_of_string (source_dir_of self).

(** Events of a download: a file created, transferred or removed. *)
Definition is_transfer (e : event) : bool :=
  match e with
  | EvCreate _ | EvRetr _ | EvUnlink _ => true
  | _ => false
  end.

(** Every listed name of either class is in the local inventory of its
    class. *)
Definition mirrored (self : PubchemLoader) (srv : Server) (f : gmap Path bytes) : Prop :=
  ∀ ext_, ext_ ∈ sup_extensions →
    class_sources (srv_list srv (source_dir_of self)) (Str.drop 1 ext_)
    ⊆ class_targets self f (source_dir_of self) (Str.drop 1 ext_).

(** [w'] follows [w] by observations only: same files, and no download
    event among the new events. *)
Definition quiet (w w' : World) : Prop :=
  fs w' = fs w
  ∧ (faults w = [] → faults w' = [])
  ∧ ∃ T, trace w' = trace w ++ T ∧ Forall (λ e, is_transfer e = false) T.

(** The state a first pass leaves: an empty mirror, a server listing
    [a.gz] and [a.md5], and a transfer of [a.md5] that fails once. *)
Definition first_pass : result unit * World :=
  full_download Scenario.loader (Scenario.server ["a.gz"; "a.md5"]) 4
    (Scenario.world [] [None; Some (NetTemp, 3)]).


(** The remote files transferred during a run, in order. *)
Definition transfers (tr : list event) : list string :=
  omap (λ e, match e with EvRetr p => Some (to_string p) | _ => None end) tr.


(** The partial-local-state scenario: the mirror holds [a.gz] and
    [a.md5]; the remote lists [a.gz], [a.md5], [b.gz], [b.md5]. *)
Definition four_files : Server := Scenario.server ["a.gz"; "a.md5"; "b.gz"; "b.md5"].

Definition partial_state : World :=
  Scenario.world [(Scenario.local "a.gz", Scenario.b "payload of a");
                  (Scenario.local "a.md5", Scenario.b "old digest of a")] [].

Definition partial_state_pass : result unit * World :=
  full_download Scenario.loader four_files 3 partial_state.

(** The local directory that mirrors the source directory. *)
Definition mirror_dir : Path := Path_of_string ("mirror/" +:+ Scenario.sd).



(** The paths handed to the handler during a run, in order. *)
Definition handler_calls (tr : list event) : list string :=
  omap (λ e, match e with EvHandler p => Some (to_string p) | _ => None end) tr.

(** The arguments of the error lines logged during a run, in order. *)
Definition error_logs (tr : list event) : list (list string) :=
  omap (λ e, match e with EvLog ERROR _ args => Some args | _ => None end) tr.

(** Archives for the stand-in decoder: a well-formed one holding
    ["abc"], one cut short after one of five announced bytes, and a
    file that is not gzip at all. *)
Definition archive_abc : bytes :=
  [Byte.x1f; Byte.x8b; Byte.x03; Byte.x61; Byte.x62; Byte.x63].
Definition archive_truncated : bytes := [Byte.x1f; Byte.x8b; Byte.x05; Byte.x61].
Definition archive_invalid : bytes := Scenario.b "plain text".

Definition extractor : Extractor := MkExtractor (Path_of_string "mirror").

(** A handler that ingests every file, and one that fails on every
    file. *)
Definition handler_ok : Path → gmap Path bytes → option exn := λ _ _, None.
Definition handler_failing : Path → gmap Path bytes → option exn := λ _ _, Some ValueError.

(** Extraction roots: a truncated archive alone; a well-formed archive
    alone; a well-formed archive beside an invalid one. *)
Definition root_truncated : World :=
  Scenario.world [(Path_of_string "mirror/bad.sdf.gz", archive_truncated)] [].
Definition root_good : World :=
  Scenario.world [(Path_of_string "mirror/good.sdf.gz", archive_abc)] [].
Definition root_good_invalid : World :=
  Scenario.world [(Path_of_string "mirror/good.sdf.gz", archive_abc);
                  (Path_of_string "mirror/bad.sdf.gz", archive_invalid)] [].

(** An extraction root with two archives of arbitrary content. *)
Definition root_two (dgood dbad : bytes) : World :=
  Scenario.world [(Path_of_string "mirror/good.sdf.gz", dgood);
                  (Path_of_string "mirror/bad.sdf.gz", dbad)] [].

(** A pass whose payload transfer is cut after three bytes: the server
    lists [a.gz]; both listings succeed, the transfer fails. *)
Definition interrupted_pass : result unit * World :=
  full_download Scenario.loader (Scenario.server ["a.gz"]) 4
    (Scenario.world [] [None; None; Some (NetEOF, 3)]).

(** The pass run again afterwards, with no fault left. *)
Definition pass_after_interruption : result unit * World :=
  full_download Scenario.loader (Scenario.server ["a.gz"]) 3
    (MkWorld (fs interrupted_pass.2) [] []).





(** The name of [p] is one path component, as every name the file
    system returns is: joining it to a directory appends it. *)
Definition plain_name (p : Path) : Prop :=
  Path_of_string (name p) = MkPath false [name p].

(** [t] is the decompressed sibling of an archive of the file system
    [f]. *)
Definition sibling_of_archive (f : gmap Path bytes) (t : Path) : Prop :=
  ∃ q, is_Some (f !! q) ∧ suffix q = ".gz" ∧ with_suffix q "" = Some t.

(** [w'] follows [w] by the work of the extraction on the tree [f]:
    the handler was called on siblings of archives of [f] only, and
    only such siblings were written or removed. *)
Definition extracted_from (f : gmap Path bytes) (w w' : World) : Prop :=
  (∃ T, trace w' = trace w ++ T
        ∧ Forall (λ e, ∀ t, e = EvHandler t ∨ e = EvUnlink t → sibling_of_archive f t) T)
  ∧ ∀ p, ¬ sibling_of_archive f p → fs w' !! p = fs w !! p.

(* ===================================================================== *)
(** * Properties *)
(* ===================================================================== *)

Local Open Scope nat_scope.

(** ** The data model on examples *)

Example Path_of_string_relative :
  Path_of_string "pubchem/Compound/CURRENT-Full/SDF/a.sdf.gz"
  = MkPath false ["pubchem"; "Compound"; "CURRENT-Full"; "SDF"; "a.sdf.gz"].
Proof. reflexivity. Qed.

Example Path_of_string_absolute :
  Path_of_string "/x//y/./z/" = MkPath true ["x"; "y"; "z"].
Proof. reflexivity. Qed.

Example suffix_of_archive : suffix_of_name "a.sdf.gz" = ".gz".
Proof. reflexivity. Qed.

Example suffix_of_dot_file : suffix_of_name ".gz" = "".
Proof. reflexivity. Qed.

Example suffix_of_trailing_dot : suffix_of_name "a." = "".
Proof. reflexivity. Qed.

Example with_suffix_strips :
  with_suffix (Path_of_string "d/a.sdf.gz") "" = Some (Path_of_string "d/a.sdf").
Proof. reflexivity. Qed.

Example join_absolute_replaces :
  join (Path_of_string "mirror") (Path_of_string "/pub/a.gz") = Path_of_string "/pub/a.gz".
Proof. reflexivity. Qed.

(** The loader of the examples is the one [download] builds, and its
    source directory is the one the examples list. *)
Example loader_of_download :
  PubchemLoader_init "compounds" "mirror" "sdf" = inr Scenario.loader
  ∧ source_dir_of Scenario.loader = Scenario.sd.
Proof. split; reflexivity. Qed.

Example gzip_stored_behaviours :
  gzip_stored archive_abc = inr (Scenario.b "abc")
  ∧ gzip_stored archive_truncated = inl EOFError
  ∧ gzip_stored archive_invalid = inl BadGzipFile
  ∧ gzip_stored [] = inr [].
Proof. repeat split; reflexivity. Qed.

(** ** Strings and paths *)

Lemma split_on_no_sep sep s :
  Str.has_char sep s = false → Str.split_on sep s = [s].
Proof.
  induction s as [|c s IH]; simpl; [done|].
  intros [Hc Hs]%orb_false_iff. rewrite Hc, (IH Hs). done.
Qed.

Lemma split_on_parts_no_sep sep s c :
  c ∈ Str.split_on sep s → Str.has_char sep c = false.
Proof.
  revert c. induction s as [|a s IH]; simpl; intros c Hc.
  - apply list_elem_of_singleton in Hc as ->. done.
  - destruct (Ascii.eqb a sep) eqn:Ha.
    + apply elem_of_cons in Hc as [->|Hc]; [done|by apply IH].
    + destruct (Str.split_on sep s) as [|w ws] eqn:Hsp.
      * apply list_elem_of_singleton in Hc as ->. simpl. by rewrite Ha.
      * apply elem_of_cons in Hc as [->|Hc].
        -- simpl. rewrite Ha. simpl. apply IH. left.
        -- apply IH. by right.
Qed.

(** A component of a parsed path parses back to itself. *)
Lemma Path_of_string_part x c :
  c ∈ parts (Path_of_string x) → Path_of_string c = MkPath false [c].
Proof.
  unfold Path_of_string; simpl. intros Hc.
  apply list_elem_of_In, List.filter_In in Hc as [Hc%list_elem_of_In Hk].
  apply split_on_parts_no_sep in Hc.
  rewrite (split_on_no_sep _ _ Hc). simpl. rewrite Hk. f_equal.
  destruct c as [|a c]; [done|]. simpl in *.
  by apply orb_false_iff in Hc as [-> _].
Qed.

Lemma last_in_or_default {A} (l : list A) d : List.last l d = d ∨ List.last l d ∈ l.
Proof.
  induction l as [|a l IH]; [by left|].
  destruct l as [|b l]; [right; simpl; left|].
  destruct IH as [IH|IH]; [left|right]; [done|]. by right.
Qed.

Lemma name_in_parts p : name p ≠ "" → name p ∈ parts p.
Proof. unfold name. by destruct (last_in_or_default (parts p) "") as [->|?]. Qed.

Lemma name_join_single d n : name (join d (MkPath false [n])) = n.
Proof. unfold name. simpl. apply List.last_last. Qed.

Lemma parent_join_single d n : parent (join d (MkPath false [n])) = d.
Proof.
  unfold parent. simpl. rewrite List.removelast_last. by destruct d.
Qed.

(** ** The class inventories *)

Lemma elem_of_get_names n (dir_ : list Path) :
  n ∈ get_names dir_ ↔ ∃ p, p ∈ dir_ ∧ n = name p.
Proof.
  unfold get_names. rewrite elem_of_list_to_set, list_elem_of_fmap. naive_solver.
Qed.

Lemma elem_of_class_sources n l ext_ :
  n ∈ class_sources l ext_ ↔
  suffix (Path_of_string n) = "." +:+ ext_ ∧ ∃ x, x ∈ l ∧ n = name (Path_of_string x).
Proof.
  unfold class_sources. rewrite elem_of_filter, elem_of_get_names.
  split; intros [Hs Hx]; (split; [done|]).
  - destruct Hx as (p & Hp & ->). apply list_elem_of_fmap in Hp as (x & -> & Hx). eauto.
  - destruct Hx as (x & Hx & ->). eexists; split; [|done].
    apply list_elem_of_fmap. eauto.
Qed.

(** A name of a class is a single, well-formed path component. *)
Lemma class_source_single n l ext_ :
  n ∈ class_sources l ext_ → Path_of_string n = MkPath false [n].
Proof.
  intros [Hs (x & _ & Hn)]%elem_of_class_sources.
  apply (Path_of_string_part x). rewrite Hn. apply name_in_parts.
  rewrite <-Hn. intros ->. by destruct ext_.
Qed.

Lemma class_source_suffix n l ext_ :
  n ∈ class_sources l ext_ → suffix_of_name n = "." +:+ ext_.
Proof.
  intros Hn. pose proof (class_source_single _ _ _ Hn) as Hp.
  apply elem_of_class_sources in Hn as [Hs _].
  unfold suffix in Hs. by rewrite Hp in Hs.
Qed.

Lemma class_sources_nil ext_ : class_sources [] ext_ = ∅.
Proof.
  apply set_eq. intros n. rewrite elem_of_class_sources.
  split; [|set_solver]. intros [_ (x & Hx & _)]. by apply elem_of_nil in Hx.
Qed.

(** ** Running the monad *)


Lemma emit_run e w : emit e w = (Ok tt, emitted w [e]).
Proof. reflexivity. Qed.

Lemma log_run lvl msg args w : log lvl msg args w = (Ok tt, emitted w [EvLog lvl msg args]).
Proof. reflexivity. Qed.

Lemma bind_run {A B} (m : M A) (f : A → M B) w :
  (m ≫= f) w =
  match m w with
  | (Ok a, w') => f a w'
  | (Raised e, w') => (Raised e, w')
  | (OutOfFuel, w') => (OutOfFuel, w')
  end.
Proof. reflexivity. Qed.

Lemma for_each_nil {A} (body : A → M unit) w : for_each [] body w = (Ok tt, w).
Proof. reflexivity. Qed.

Lemma for_each_cons {A} (body : A → M unit) x xs w :
  for_each (x :: xs) body w = (body x ≫= λ _, for_each xs body) w.
Proof. reflexivity. Qed.

(** ** The per-class diff *)

Lemma diff_names_subseteq self f sd l ext_ :
  diff_names self f sd l ext_ ⊆ class_sources l ext_.
Proof. unfold diff_names. set_solver. Qed.

Lemma diff_names_nil self f sd ext_ : diff_names self f sd [] ext_ = ∅.
Proof.
  pose proof (diff_names_subseteq self f sd [] ext_) as H.
  rewrite class_sources_nil in H. set_solver.
Qed.

Lemma diff_run self sd l ext_ w :
  diff self sd l ext_ w
  = (Ok (diff_targets self (fs w) sd l ext_),
     emitted w [EvGlob (join_str (target_dir self) sd) ("*." +:+ ext_)]).
Proof.
  unfold diff, glob. rewrite !bind_run. simpl.
  change (class_sources l ext_ ∖ get_names (glob_fs (fs w) (join_str (target_dir self) sd) ext_))
    with (diff_names self (fs w) sd l ext_).
  unfold diff_targets. case_bool_decide as Hd.
  - destruct l as [|first rest]; [|done].
    by rewrite diff_names_nil in Hd.
  - rewrite Hd, elements_empty.
    by destruct l.
Qed.

Lemma elem_of_diff_targets self f sd l ext_ t :
  t ∈ diff_targets self f sd l ext_ ↔
  ∃ first rest n, l = first :: rest ∧ n ∈ diff_names self f sd l ext_
                  ∧ t = join (parent (Path_of_string first)) (MkPath false [n]).
Proof.
  unfold diff_targets. destruct l as [|first rest].
  - split; [by intros ?%elem_of_nil|]. by intros (?&?&?&?&_).
  - rewrite list_elem_of_fmap. split.
    + intros (n & -> & Hn%elem_of_elements). exists first, rest, n.
      split_and!; [done..|]. unfold join_str.
      by rewrite (class_source_single n (first :: rest) ext_)
        by by apply diff_names_subseteq in Hn.
    + intros (? & ? & n & [= <- <-] & Hn & ->). exists n.
      split; [|by apply elem_of_elements]. unfold join_str.
      by rewrite (class_source_single n (first :: rest) ext_)
        by by apply diff_names_subseteq in Hn.
Qed.


Lemma length_diff_targets self f sd l ext_ :
  length (diff_targets self f sd l ext_) = size (diff_names self f sd l ext_).
Proof.
  unfold diff_targets. destruct l.
  - by rewrite diff_names_nil, size_empty.
  - by rewrite length_fmap.
Qed.



(** C10 — The per-class diff is total. For every listing, the diff
    returns normally: it yields one target per missing name, each the
    parent directory of the first listed entry joined with that name;
    an empty listing has an empty missing-set, so the first entry is
    read only from a non-empty listing, and an empty listing or an
    empty missing-set yields no target and no error. *)
Theorem diff_total self sd l ext_ w :
  let D := diff_names self (fs w) sd l ext_ in
  ∃ ts, diff self sd l ext_ w
        = (Ok ts, emitted w [EvGlob (join_str (target_dir self) sd) ("*." +:+ ext_)])
      ∧ length ts = size D
      ∧ Forall (λ t, ∃ first rest n,
                  l = first :: rest ∧ n ∈ D
                  ∧ t = join_str (parent (Path_of_string first)) n) ts
      ∧ diff_names self (fs w) sd [] ext_ = ∅
      ∧ (diff self sd [] ext_ w).1 = Ok [].
Proof.
  intros D. exists (diff_targets self (fs w) sd l ext_).
  split_and!.
  - apply diff_run.
  - apply length_diff_targets.
  - apply Forall_forall. intros t (first & rest & n & -> & Hn & ->)%elem_of_diff_targets.
    exists first, rest, n. split_and!; [done..|]. unfold join_str.
    by rewrite (class_source_single n (first :: rest) ext_)
      by by apply diff_names_subseteq in Hn.
  - apply diff_names_nil.
  - by rewrite diff_run.
Qed.

(** ** The download policy *)


(** ** The download policy *)

Lemma suffix_nonempty_name p : suffix p ≠ "" → name p ≠ "".
Proof. unfold suffix. intros H Hn. by rewrite Hn in H. Qed.

Lemma checksum_run p w :
  suffix p ≠ "" → checksum p w = (Ok true, w).
Proof.
  intros Hs%suffix_nonempty_name. unfold checksum, with_suffix.
  apply String.eqb_neq in Hs. rewrite Hs. by destruct w.
Qed.

Lemma exn_of_net_not_exists e : exn_of_net e ≠ FileExistsError.
Proof. by destruct e. Qed.

(** A free destination: exclusive create, then the transfer. *)
Lemma download_file_fresh self srv fuel filename tries w :
  let pth := join (target_dir self) filename in
  fs w !! pth = None →
  suffix pth ∈ sup_extensions →
  download_file self srv (S fuel) filename tries w = fetch_result srv filename pth w.
Proof.
  intros pth Hfree Hsup. simpl. fold pth.
  rewrite bool_decide_eq_true_2 by done.
  unfold mkdir_parents_exist_ok, try_except. rewrite !bind_run. simpl.
  unfold open_xb, ftp_get, fetch_result. rewrite !bind_run. simpl.
  rewrite Hfree. simpl.
  destruct (faults w) as [|[[e k]|] rest] eqn:Hfl; simpl;
    rewrite ?Hfl; simpl; rewrite ?lookup_insert_eq, ?insert_insert_eq; simpl;
    rewrite <-?app_assoc; simpl.
  - done.
  - by rewrite bool_decide_eq_false_2 by apply exn_of_net_not_exists.
  - done.
Qed.

(** An occupied payload destination: nothing is written. *)
Lemma download_file_collision_gz self srv fuel filename tries w old :
  let pth := join (target_dir self) filename in
  fs w !! pth = Some old →
  suffix pth = ".gz" →
  download_file self srv (S fuel) filename tries w
  = (Ok tt, emitted w [EvLog ERROR "File %s already downloaded" [to_string filename]]).
Proof.
  intros pth Hold Hgz. simpl. fold pth.
  rewrite bool_decide_eq_true_2 by (rewrite Hgz; set_solver).
  unfold mkdir_parents_exist_ok, try_except. rewrite !bind_run. simpl.
  unfold open_xb. rewrite !bind_run. simpl. rewrite Hold. simpl.
  rewrite (bool_decide_eq_false_2 (suffix pth = ".md5")) by by rewrite Hgz.
  rewrite bind_run, checksum_run by by rewrite Hgz. done.
Qed.

(** An occupied sidecar destination: unlink, then fetch as if free. *)
Lemma download_file_collision_md5 self srv fuel filename tries w old :
  let pth := join (target_dir self) filename in
  fs w !! pth = Some old →
  suffix pth = ".md5" →
  download_file self srv (S (S fuel)) filename tries w
  = fetch_result srv filename pth (unlinked w pth).
Proof.
  intros pth Hold Hmd5.
  rewrite <-(download_file_fresh self srv fuel filename (tries + 1));
    [|apply lookup_delete_eq|fold pth; rewrite Hmd5; set_solver].
  change (download_file self srv (S (S fuel)) filename tries w)
    with ((if bool_decide (suffix pth ∈ sup_extensions) then
             mkdir_parents_exist_ok (parent pth) ;;
             try_except
               (open_xb pth ;; ftp_get srv filename pth ;;
                log INFO "Downloaded %s" [to_string pth])
               (λ e, bool_decide (e = FileExistsError))
               (λ _, if bool_decide (suffix pth = ".md5") then
                       unlink pth ;; download_file self srv (S fuel) filename (tries + 1)
                     else
                       ok ← checksum pth;
                       if negb ok then download_file self srv (S fuel) filename (tries + 1)
                       else log ERROR "File %s already downloaded" [to_string filename])
           else mret tt) w).
  rewrite bool_decide_eq_true_2 by (rewrite Hmd5; set_solver).
  unfold mkdir_parents_exist_ok, try_except. rewrite bind_run. simpl.
  unfold open_xb at 1. rewrite !bind_run. simpl. rewrite Hold. simpl.
  rewrite (bool_decide_eq_true_2 (suffix pth = ".md5")) by done.
  unfold unlink. rewrite !bind_run. simpl. rewrite Hold. done.
Qed.

(** C5 — Exclusive-create safety. When the destination of a download
    already exists and belongs to a supported class, the collision is
    handled inside the download: a payload ([.gz]) destination is left
    as it is (its bytes are not overwritten, an error is logged and the
    call returns normally), while a sidecar ([.md5]) destination is
    unlinked and fetched again as a fresh file. *)
Theorem download_collision self srv fuel filename tries w old :
  let pth := join (target_dir self) filename in
  fs w !! pth = Some old →
  suffix pth ∈ sup_extensions →
  download_file self srv (S (S fuel)) filename tries w
  = if bool_decide (suffix pth = ".md5")
    then fetch_result srv filename pth (unlinked w pth)
    else (Ok tt, emitted w [EvLog ERROR "File %s already downloaded" [to_string filename]]).
Proof.
  intros pth Hold Hsup. case_bool_decide as Hmd5.
  - by apply download_file_collision_md5 with old.
  - apply download_file_collision_gz with old; [done|].
    unfold sup_extensions in Hsup. set_solver.
Qed.

Lemma download_collision_witness :
  let self := Scenario.loader in
  let srv := Scenario.server ["a.gz"; "a.md5"] in
  let filename := Scenario.remote "a.gz" in
  let w := Scenario.world [(Scenario.local "a.gz", Scenario.b "old")] [] in
  let pth := join (target_dir self) filename in
  fs w !! pth = Some (Scenario.b "old")
  ∧ suffix pth ∈ sup_extensions
  ∧ download_file self srv 2 filename 0 w
    = if bool_decide (suffix pth = ".md5")
      then fetch_result srv filename pth (unlinked w pth)
      else (Ok tt, emitted w [EvLog ERROR "File %s already downloaded" [to_string filename]]).
Proof.
  intros self srv filename w pth.
  assert (fs w !! pth = Some (Scenario.b "old")) as Hold by (vm_compute; reflexivity).
  assert (suffix pth ∈ sup_extensions) as Hsup by (vm_compute; right; left).
  split_and!; [exact Hold|exact Hsup|].
  exact (download_collision self srv 0 filename 0 w (Scenario.b "old") Hold Hsup).
Defined.

(** ** What the local scan sees *)

Lemma length_drop_str i s : String.length (Str.drop i s) = String.length s - i.
Proof.
  revert s. induction i as [|i IH]; intros s; simpl; [lia|].
  destruct s; simpl; [done|]. apply IH.
Qed.

Lemma rfind_lt c s i : Str.rfind c s = Some i → i < String.length s.
Proof.
  revert i. induction s as [|a s IH]; simpl; intros i; [done|].
  destruct (Str.rfind c s) as [j|].
  - intros [= <-]. specialize (IH j eq_refl). lia.
  - destruct (Ascii.eqb a c); [|done]. intros [= <-]. lia.
Qed.

(** A name whose [suffix] is [s] ends with [s]: what [Path.suffix]
    accepts, the glob pattern of the same class matches. *)
Lemma suffix_endswith nm s :
  suffix_of_name nm = s → s ≠ "" → Str.endswith nm s = true.
Proof.
  unfold suffix_of_name. destruct (Str.rfind dot nm) as [i|] eqn:Hi; [|by intros <-].
  destruct (Nat.ltb 0 i && Nat.ltb i (String.length nm - 1)); [|by intros <-].
  intros <- _. apply rfind_lt in Hi. unfold Str.endswith.
  rewrite length_drop_str. apply andb_true_iff. split.
  - apply Nat.leb_le. lia.
  - replace (String.length nm - (String.length nm - i)) with i by lia.
    apply String.eqb_refl.
Qed.

Lemma elem_of_keys (f : gmap Path bytes) p :
  p ∈ (map_to_list f).*1 ↔ is_Some (f !! p).
Proof.
  rewrite list_elem_of_fmap. split.
  - intros ([q v] & -> & Hq%elem_of_map_to_list). eauto.
  - intros [v Hv]. exists (p, v). split; [done|]. by apply elem_of_map_to_list.
Qed.

Lemma elem_of_glob_fs f dir ext_ p :
  p ∈ glob_fs f dir ext_ ↔
  is_Some (f !! p) ∧ parts p ≠ [] ∧ parent p = dir
  ∧ Str.endswith (name p) ("." +:+ ext_) = true.
Proof.
  unfold glob_fs. rewrite list_elem_of_In, List.filter_In, <-list_elem_of_In, elem_of_keys.
  rewrite !andb_true_iff, !bool_decide_eq_true. naive_solver.
Qed.

Lemma elem_of_class_targets self f sd ext_ n :
  n ∈ class_targets self f sd ext_ ↔
  ∃ p, is_Some (f !! p) ∧ parts p ≠ [] ∧ parent p = join_str (target_dir self) sd
       ∧ Str.endswith (name p) ("." +:+ ext_) = true ∧ n = name p.
Proof.
  unfold class_targets. rewrite elem_of_get_names.
  split; intros (p & Hp & Hn); exists p.
  - apply elem_of_glob_fs in Hp. naive_solver.
  - split; [apply elem_of_glob_fs|]; naive_solver.
Qed.

(** The class inventory only depends on which paths exist, and grows
    with them. *)
Lemma class_targets_mono self f f' sd ext_ :
  dom f ⊆ dom f' → class_targets self f sd ext_ ⊆ class_targets self f' sd ext_.
Proof.
  intros Hdom n (p & Hp & ?)%elem_of_class_targets.
  apply elem_of_class_targets. exists p. split; [|done].
  apply elem_of_dom, Hdom, elem_of_dom, Hp.
Qed.

(** Where a target lands locally, and how the scan sees it. *)
Lemma local_destination td d n :
  let pth := join td (join d (MkPath false [n])) in
  parts pth ≠ [] ∧ name pth = n ∧ parent pth = join td d.
Proof.
  destruct td as [rt pt], d as [[] pd]; unfold join, parent, name; simpl.
  - rewrite List.last_last, List.removelast_last. split_and!; [|done..].
    by destruct pd.
  - rewrite !app_assoc, List.last_last, List.removelast_last.
    split_and!; [|done..]. by destruct (pt ++ pd).
Qed.

Lemma downloaded_is_seen self f sd l ext_ n :
  n ∈ class_sources l ext_ →
  is_Some (f !! join (target_dir self) (join (Path_of_string sd) (MkPath false [n]))) →
  n ∈ class_targets self f sd ext_.
Proof.
  intros Hn Hf. apply elem_of_class_targets.
  destruct (local_destination (target_dir self) (Path_of_string sd) n) as (Hp & Hnm & Hpar).
  eexists. split_and!; [exact Hf|done|done| |done].
  rewrite Hnm. apply suffix_endswith; [by eapply class_source_suffix|done].
Qed.

(** ** What a pass leaves behind, whatever the transport does *)

Ltac run_in H :=
  repeat first
    [ rewrite bind_run in H | rewrite log_run in H | rewrite emit_run in H
    | progress unfold sleep in H | progress cbn beta iota in H ].

Lemma ret_run {A} (a : A) w : (mret a : M A) w = (Ok a, w).
Proof. reflexivity. Qed.

Lemma fetch_result_post srv remote dest w :
  dom (fs w) ⊆ dom (fs (fetch_result srv remote dest w).2)
  ∧ dest ∈ dom (fs (fetch_result srv remote dest w).2)
  ∧ (fetch_result srv remote dest w).1 ≠ OutOfFuel.
Proof.
  unfold fetch_result. destruct (faults w) as [|[[e k]|] rest]; simpl;
    rewrite dom_insert_L; split_and!; (done || set_solver).
Qed.

Lemma download_file_collision_md5_step self srv fuel filename tries w old :
  let pth := join (target_dir self) filename in
  fs w !! pth = Some old →
  suffix pth = ".md5" →
  download_file self srv (S fuel) filename tries w
  = download_file self srv fuel filename (tries + 1) (unlinked w pth).
Proof.
  intros pth Hold Hmd5. simpl. fold pth.
  rewrite bool_decide_eq_true_2 by (rewrite Hmd5; set_solver).
  unfold mkdir_parents_exist_ok, try_except. rewrite bind_run. simpl.
  unfold open_xb at 1. rewrite !bind_run. simpl. rewrite Hold. simpl.
  rewrite (bool_decide_eq_true_2 (suffix pth = ".md5")) by done.
  unfold unlink. rewrite !bind_run. simpl. rewrite Hold. done.
Qed.

(** Whatever happens, a download never makes a path disappear, and its
    destination exists afterwards. *)
Lemma download_file_post self srv fuel filename tries w r w' :
  let pth := join (target_dir self) filename in
  download_file self srv fuel filename tries w = (r, w') →
  r ≠ OutOfFuel →
  dom (fs w) ⊆ dom (fs w') ∧ (suffix pth ∈ sup_extensions → pth ∈ dom (fs w')).
Proof.
  intros pth Hrun Hr. destruct fuel as [|fuel]; [by unfold download_file, out_of_fuel in Hrun; simplify_eq|].
  destruct (decide (suffix pth ∈ sup_extensions)) as [Hsup|Hsup]; cycle 1.
  { simpl in Hrun. fold pth in Hrun. rewrite bool_decide_eq_false_2 in Hrun by done.
    rewrite ret_run in Hrun. by simplify_eq. }
  destruct (fs w !! pth) as [old|] eqn:Hold.
  - destruct (decide (suffix pth = ".md5")) as [Hmd5|Hgz].
    + rewrite (download_file_collision_md5_step _ _ _ _ _ _ old) in Hrun by done.
      destruct fuel as [|fuel]; [by unfold download_file, out_of_fuel in Hrun; simplify_eq|].
      rewrite download_file_fresh in Hrun;
        [|apply lookup_delete_eq|done].
      fold pth in Hrun.
      destruct (fetch_result_post srv filename pth (unlinked w pth)) as (Hd & Hp & _).
      rewrite Hrun in Hd, Hp. simpl in *. split; [|done].
      intros q Hq. destruct (decide (q = pth)) as [->|Hne]; [done|].
      apply Hd. rewrite dom_delete_L. set_solver.
    + rewrite (download_file_collision_gz _ _ _ _ _ _ old) in Hrun;
        [|done|unfold sup_extensions in Hsup; set_solver].
      simplify_eq/=. split; [done|]. intros _. by apply elem_of_dom.
  - rewrite download_file_fresh in Hrun by done. fold pth in Hrun.
    destruct (fetch_result_post srv filename pth w) as (Hd & Hp & _).
    rewrite Hrun in Hd, Hp. done.
Qed.

Lemma download_step_post self srv fuel (retry : M unit) remote_file w r w' :
  let pth := join (target_dir self) remote_file in
  (∀ w1 r1 w1', retry w1 = (r1, w1') → r1 ≠ OutOfFuel → dom (fs w1) ⊆ dom (fs w1')) →
  download_step self srv fuel retry remote_file w = (r, w') →
  r ≠ OutOfFuel →
  dom (fs w) ⊆ dom (fs w') ∧ (suffix pth ∈ sup_extensions → pth ∈ dom (fs w')).
Proof.
  intros pth Hretry Hrun Hr. unfold download_step, try_except in Hrun.
  rewrite bind_run, log_run in Hrun.
  destruct (download_file self srv fuel remote_file 0 _) as [r0 w0] eqn:Hdl.
  destruct r0 as [[]|e|].
  - simplify_eq. by apply download_file_post in Hdl.
  - apply download_file_post in Hdl as [Hd Hp]; [|done]. simpl in Hd.
    run_in Hrun.
    apply Hretry in Hrun; [|done]. simpl in Hrun. fold pth in Hp. set_solver.
  - by simplify_eq.
Qed.

(** A loop keeps what its body keeps. *)
Lemma for_each_post {A} (body : A → M unit) (Q : A → World → Prop) xs :
  (∀ x w r w', body x w = (r, w') → r ≠ OutOfFuel →
               dom (fs w) ⊆ dom (fs w') ∧ (r = Ok tt → Q x w')) →
  (∀ x w w', Q x w → dom (fs w) ⊆ dom (fs w') → Q x w') →
  ∀ w r w', for_each xs body w = (r, w') → r ≠ OutOfFuel →
            dom (fs w) ⊆ dom (fs w') ∧ (r = Ok tt → ∀ x, x ∈ xs → Q x w').
Proof.
  intros Hbody Hmono. induction xs as [|x xs IH]; intros w r w' Hrun Hr.
  - rewrite for_each_nil in Hrun. simplify_eq. split; [done|].
    by intros _ x ?%elem_of_nil.
  - rewrite for_each_cons, bind_run in Hrun.
    destruct (body x w) as [r0 w0] eqn:Hb.
    destruct r0 as [[]|e|]; [| |by simplify_eq].
    + apply Hbody in Hb as [Hd HQ]; [|done].
      apply IH in Hrun as [Hd' HQ']; [|done]. split; [set_solver|].
      intros Hok y [->|Hy]%elem_of_cons; [by eapply Hmono; [apply HQ|]|by apply HQ'].
    + simplify_eq. apply Hbody in Hb as [Hd _]; done.
Qed.

Lemma ftp_list_run srv dir w :
  ftp_list srv dir w
  = match faults w with
    | Some (e, _) :: rest =>
        (Raised (exn_of_net e), MkWorld (fs w) rest (trace w ++ [EvList dir]))
    | script =>
        (Ok (srv_list srv dir), MkWorld (fs w) (tail script) (trace w ++ [EvList dir]))
    end.
Proof.
  destruct w as [f [|[[e k]|] rest] tr]; reflexivity.
Qed.

Lemma ftp_list_cases srv dir w r w' :
  ftp_list srv dir w = (r, w') →
  fs w' = fs w ∧ trace w' = trace w ++ [EvList dir]
  ∧ (faults w = [] → faults w' = [])
  ∧ ((∃ e, r = Raised e) ∨ r = Ok (srv_list srv dir))
  ∧ (faults w = [] → r = Ok (srv_list srv dir)).
Proof.
  rewrite ftp_list_run. destruct (faults w) as [|[[e k]|] rest]; intros [= <- <-];
    simpl; split_and!; eauto; done.
Qed.

Lemma with_FTP_run {A} (body : M A) w :
  with_FTP body w
  = ((body (emitted w [EvConnect])).1, emitted (body (emitted w [EvConnect])).2 [EvClose]).
Proof.
  unfold with_FTP, finally. rewrite bind_run, emit_run.
  by destruct (body _).
Qed.

Lemma full_download_unfold self srv fuel :
  full_download self srv (S fuel)
  = with_FTP (for_each sup_extensions
                (sync_class self srv fuel (full_download self srv fuel)
                            (source_dir_of self))).
Proof. reflexivity. Qed.

Lemma supported_class ext_ :
  ext_ ∈ sup_extensions → "." +:+ Str.drop 1 ext_ = ext_.
Proof.
  unfold sup_extensions. intros [->|[->|[]%elem_of_nil]%elem_of_cons]%elem_of_cons; done.
Qed.

Lemma sync_class_post self srv fuel (retry : M unit) ext_ w r w' :
  (∀ w1 r1 w1', retry w1 = (r1, w1') → r1 ≠ OutOfFuel → dom (fs w1) ⊆ dom (fs w1')) →
  flat_listing self srv →
  sync_class self srv fuel retry (source_dir_of self) ext_ w = (r, w') →
  r ≠ OutOfFuel →
  dom (fs w) ⊆ dom (fs w')
  ∧ (r = Ok tt → ext_ ∈ sup_extensions →
     class_sources (srv_list srv (source_dir_of self)) (Str.drop 1 ext_)
     ⊆ class_targets self (fs w') (source_dir_of self) (Str.drop 1 ext_)).
Proof.
  intros Hretry Hflat Hrun Hr. unfold sync_class in Hrun.
  rewrite bind_run in Hrun.
  destruct (ftp_list srv (source_dir_of self) w) as [rl wl] eqn:Hl.
  apply ftp_list_cases in Hl as (Hfs & _ & _ & [[e ->]| ->] & _).
  { simplify_eq. by rewrite Hfs. }
  rewrite bind_run, diff_run in Hrun. rewrite Hfs in Hrun.
  set (l := srv_list srv (source_dir_of self)) in *.
  set (e := Str.drop 1 ext_) in *.
  apply (for_each_post _
           (λ t w', suffix (join (target_dir self) t) ∈ sup_extensions →
                    join (target_dir self) t ∈ dom (fs w'))) in Hrun;
    [| |set_solver|done].
  2:{ intros t w1 r1 w1' Hstep Hr1.
      eapply download_step_post in Hstep as [? ?]; done. }
  simpl in Hrun. rewrite Hfs in Hrun. destruct Hrun as [Hd HQ].
  split; [done|]. intros Hok Hext n Hn.
  destruct (decide (n ∈ class_targets self (fs w) (source_dir_of self) e)) as [Hin|Hout].
  { by eapply class_targets_mono. }
  assert (n ∈ diff_names self (fs w) (source_dir_of self) l e) as Hmiss
    by (unfold diff_names; set_solver).
  destruct l as [|first rest] eqn:Hlist; [by rewrite diff_names_nil in Hmiss|].
  assert (parent (Path_of_string first) = Path_of_string (source_dir_of self)) as Hpar.
  { apply Hflat. fold l. rewrite Hlist. left. }
  eapply downloaded_is_seen; [done|]. apply elem_of_dom.
  rewrite <-Hpar. apply (HQ Hok).
  - apply elem_of_diff_targets. eauto 6.
  - destruct (local_destination (target_dir self) (parent (Path_of_string first)) n)
      as (_ & Hnm & _).
    unfold suffix. rewrite Hnm, (class_source_suffix n _ e Hn).
    unfold e. by rewrite supported_class.
Qed.

(** However often it restarts, a pass that does not run out of stack
    never loses a file, and one that returns has every listed name of
    both classes in the local inventory. *)
Lemma full_download_post self srv fuel :
  flat_listing self srv →
  ∀ w r w', full_download self srv fuel w = (r, w') → r ≠ OutOfFuel →
            dom (fs w) ⊆ dom (fs w') ∧ (r = Ok tt → mirrored self srv (fs w')).
Proof.
  intros Hflat. induction fuel as [|fuel IH]; intros w r w' Hrun Hr.
  { by unfold full_download, out_of_fuel in Hrun; simplify_eq. }
  rewrite full_download_unfold, with_FTP_run in Hrun.
  destruct (for_each _ _ _) as [r0 w0] eqn:Hloop. simpl in Hrun. simplify_eq.
  apply (for_each_post _
           (λ ext_ w', ext_ ∈ sup_extensions →
              class_sources (srv_list srv (source_dir_of self)) (Str.drop 1 ext_)
              ⊆ class_targets self (fs w') (source_dir_of self) (Str.drop 1 ext_)))
    in Hloop; [| | |done].
  - simpl in *. destruct Hloop as [Hd HQ]. split; [done|].
    intros Hok ext_ Hext. by apply HQ.
  - intros ext_ w1 r1 w1' Hstep Hr1.
    eapply sync_class_post in Hstep as [Hd HQ]; [|by intros; eapply IH|done..].
    split; [done|]. intros Hok Hext. by apply HQ.
  - intros ext_ w1 w1' HQ Hd Hext. etrans; [by apply HQ|]. by apply class_targets_mono.
Qed.

(** ** A pass over a complete mirror *)

Lemma quiet_trans w1 w2 w3 : quiet w1 w2 → quiet w2 w3 → quiet w1 w3.
Proof.
  intros (Hf1 & Hs1 & T1 & Ht1 & HT1) (Hf2 & Hs2 & T2 & Ht2 & HT2).
  split_and!; [congruence|auto|].
  exists (T1 ++ T2). rewrite Ht2, Ht1, app_assoc. split; [done|].
  by apply Forall_app.
Qed.

Lemma quiet_emitted w evs :
  Forall (λ e, is_transfer e = false) evs → quiet w (emitted w evs).
Proof. intros H. split_and!; [done..|]. by exists evs. Qed.

Lemma diff_targets_none self f sd l ext_ :
  class_sources l ext_ ⊆ class_targets self f sd ext_ →
  diff_targets self f sd l ext_ = [].
Proof.
  intros H. apply length_zero_iff_nil. rewrite length_diff_targets.
  apply size_empty_iff. unfold diff_names. set_solver.
Qed.

Lemma sync_class_quiet self srv fuel (retry : M unit) sd ext_ w :
  class_sources (srv_list srv sd) (Str.drop 1 ext_)
  ⊆ class_targets self (fs w) sd (Str.drop 1 ext_) →
  ∃ r w', sync_class self srv fuel retry sd ext_ w = (r, w')
        ∧ r ≠ OutOfFuel ∧ quiet w w' ∧ (faults w = [] → r = Ok tt).
Proof.
  intros Hall. unfold sync_class. rewrite bind_run.
  destruct (ftp_list srv sd w) as [rl wl] eqn:Hl.
  apply ftp_list_cases in Hl as (Hfs & Htr & Hfl & [[e ->]| ->] & Hok).
  - eexists _, _. split; [done|]. split_and!; [done| |by intros [=]%Hok].
    split_and!; [done..|]. exists [EvList sd]. split; [done|]. by repeat constructor.
  - rewrite bind_run, diff_run, Hfs, diff_targets_none by done.
    rewrite for_each_nil. eexists _, _. split; [done|]. split_and!; [done| |done].
    split_and!; [done..|]. eexists [EvList sd; _]. simpl. rewrite Htr, <-app_assoc.
    split; [done|]. by repeat constructor.
Qed.

(** On a complete mirror a pass only looks: it lists and scans each
    class, and downloads nothing. *)
Lemma full_download_quiet self srv fuel w :
  mirrored self srv (fs w) →
  ∃ r w', full_download self srv (S fuel) w = (r, w')
        ∧ r ≠ OutOfFuel ∧ quiet w w' ∧ (faults w = [] → r = Ok tt).
Proof.
  intros Hm. rewrite full_download_unfold, with_FTP_run.
  unfold sup_extensions at 1 2. rewrite !for_each_cons, !bind_run.
  set (w0 := emitted w [EvConnect]).
  assert (quiet w w0) as Hq0 by (apply quiet_emitted; by repeat constructor).
  destruct (sync_class_quiet self srv fuel (full_download self srv fuel)
              (source_dir_of self) ".md5" w0) as (r1 & w1 & -> & Hr1 & Hq1 & Hok1).
  { apply Hm. unfold sup_extensions. set_solver. }
  assert (∀ w2, quiet w0 w2 → quiet w (emitted w2 [EvClose])) as Hclose.
  { intros w2 Hq2. eapply quiet_trans; [done|]. eapply quiet_trans; [done|].
    apply quiet_emitted. by repeat constructor. }
  destruct r1 as [[]|e|]; [| |done]; cycle 1.
  { eexists _, _. split; [done|]. simpl. split_and!; [done|by eapply Hclose|].
    intros Hfl. by specialize (Hok1 Hfl). }
  rewrite for_each_cons, bind_run.
  destruct (sync_class_quiet self srv fuel (full_download self srv fuel)
              (source_dir_of self) ".gz" w1) as (r2 & w2 & -> & Hr2 & Hq2 & Hok2).
  { destruct Hq1 as (-> & _). apply Hm. unfold sup_extensions. set_solver. }
  assert (quiet w0 w2) as Hq02 by by eapply quiet_trans.
  assert (faults w = [] → faults w1 = []) as Hfl1.
  { intros Hfl. by apply Hq1. }
  destruct r2 as [[]|e|]; [| |done].
  - rewrite for_each_nil. eexists _, _. split; [done|]. simpl.
    split_and!; [done|by eapply Hclose|done].
  - eexists _, _. split; [done|]. simpl. split_and!; [done|by eapply Hclose|].
    intros Hfl. by specialize (Hok2 (Hfl1 Hfl)).
Qed.

(** C4 — Idempotent sync. Whenever a pass has returned normally
    (whatever faults and restarts it went through), a second pass over
    the unchanged remote directory downloads nothing: it ends without
    running out of stack, leaves every file as it is and creates,
    transfers and removes no file; with no transport fault left it
    returns normally. The listing is that of the source directory, each
    entry carrying the directory prefix. *)
Theorem sync_idempotent self srv fuel1 fuel2 w w1 :
  flat_listing self srv →
  full_download self srv fuel1 w = (Ok tt, w1) →
  ∃ r w2 T, full_download self srv (S fuel2) w1 = (r, w2)
          ∧ r ≠ OutOfFuel
          ∧ fs w2 = fs w1
          ∧ trace w2 = trace w1 ++ T
          ∧ Forall (λ e, is_transfer e = false) T
          ∧ (faults w1 = [] → r = Ok tt).
Proof.
  intros Hflat Hrun1.
  apply (full_download_post self srv fuel1 Hflat) in Hrun1 as [_ Hm]; [|done].
  destruct (full_download_quiet self srv fuel2 w1 (Hm eq_refl))
    as (r & w2 & Hrun2 & Hr & (Hfs & _ & T & Htr & HT) & Hok).
  by exists r, w2, T.
Qed.

Lemma flat_listing_scenario names :
  Forall (λ nm, Path_of_string (Scenario.sd +:+ "/" +:+ nm)
               = MkPath false ["pubchem"; "Compound"; "CURRENT-Full"; "SDF"; nm]) names →
  flat_listing Scenario.loader (Scenario.server names).
Proof.
  intros Hall x Hx. simpl in Hx.
  apply list_elem_of_fmap in Hx as (nm & -> & Hnm).
  rewrite Forall_forall in Hall. specialize (Hall nm Hnm).
  change (source_dir_of Scenario.loader) with Scenario.sd.
  rewrite Hall. reflexivity.
Qed.

Lemma pair_eta_fst {A B} (x : A * B) a : x.1 = a → x = (a, x.2).
Proof. destruct x. simpl. by intros ->. Qed.

Lemma sync_idempotent_witness :
  let self := Scenario.loader in
  let srv := Scenario.server ["a.gz"; "a.md5"] in
  let w := Scenario.world [] [None; Some (NetTemp, 3)] in
  let w1 := first_pass.2 in
  flat_listing self srv
  ∧ full_download self srv 4 w = (Ok tt, w1)
  ∧ ∃ r w2 T, full_download self srv 1 w1 = (r, w2)
            ∧ r ≠ OutOfFuel
            ∧ fs w2 = fs w1
            ∧ trace w2 = trace w1 ++ T
            ∧ Forall (λ e, is_transfer e = false) T
            ∧ (faults w1 = [] → r = Ok tt).
Proof.
  intros self srv w w1.
  assert (flat_listing self srv) as Hflat
    by (apply flat_listing_scenario; repeat constructor).
  assert (full_download self srv 4 w = (Ok tt, w1)) as Hrun.
  { change (first_pass = (Ok tt, first_pass.2)).
    apply pair_eta_fst. vm_compute. reflexivity. }
  split_and!; [exact Hflat|exact Hrun|].
  exact (sync_idempotent self srv 4 0 w w1 Hflat Hrun).
Defined.

(** ** A pass that meets no transport fault *)

Lemma diff_target_suffix self f sd l ext_ t :
  t ∈ diff_targets self f sd l ext_ →
  suffix t = "." +:+ ext_ ∧ suffix (join (target_dir self) t) = "." +:+ ext_.
Proof.
  intros (first & rest & n & -> & Hn%diff_names_subseteq & ->)%elem_of_diff_targets.
  apply class_source_suffix in Hn. unfold suffix.
  destruct (local_destination (target_dir self) (parent (Path_of_string first)) n)
    as (_ & -> & _).
  by rewrite name_join_single.
Qed.







(** The fresh-mirror scenario: the remote lists [a.gz], [a.md5],
    [b.gz], [b.md5], the mirror is empty; the two sidecars are
    transferred before the two payloads and four files result. *)
Example fresh_mirror :
  let run := full_download Scenario.loader
               (Scenario.server ["a.gz"; "a.md5"; "b.gz"; "b.md5"]) 3
               (Scenario.world [] []) in
  run.1 = Ok tt
  ∧ transfers (trace run.2)
    = ["pubchem/Compound/CURRENT-Full/SDF/a.md5";
       "pubchem/Compound/CURRENT-Full/SDF/b.md5";
       "pubchem/Compound/CURRENT-Full/SDF/a.gz";
       "pubchem/Compound/CURRENT-Full/SDF/b.gz"]
  ∧ size (fs run.2) = 4.
Proof. vm_compute. done. Qed.

(** ** Targets whose destinations are free *)













(** ** Files already in the mirror *)




(** The partial-local-state scenario: the pass transfers [b.md5], then
    [b.gz], and nothing else; [a.gz] and [a.md5] keep their bytes. *)
Example partial_state_scenario :
  partial_state_pass.1 = Ok tt
  ∧ transfers (trace partial_state_pass.2)
    = ["pubchem/Compound/CURRENT-Full/SDF/b.md5";
       "pubchem/Compound/CURRENT-Full/SDF/b.gz"]
  ∧ fs partial_state_pass.2 !! Scenario.local "a.gz" = Some (Scenario.b "payload of a")
  ∧ fs partial_state_pass.2 !! Scenario.local "a.md5" = Some (Scenario.b "old digest of a")
  ∧ fs partial_state_pass.2 !! Scenario.local "b.gz" = Some (Scenario.b "remote b.gz")
  ∧ fs partial_state_pass.2 !! Scenario.local "b.md5" = Some (Scenario.b "remote b.md5").
Proof. vm_compute. done. Qed.

(** ** Restart on a failed download, and termination *)











(** A transfer that fails once: the warning, the back-off and the
    retry are followed by a complete nested pass (session, listing and
    scan of both classes, download of the payload); when it has
    returned, the interrupted pass goes on with its own loop and its
    own second class. *)
Example retry_scenario :
  first_pass.1 = Ok tt
  ∧ trace first_pass.2
    = [EvConnect;
       EvList Scenario.sd; EvGlob mirror_dir "*.md5";
       EvLog INFO "start download %s" ["pubchem/Compound/CURRENT-Full/SDF/a.md5"];
       EvCreate (Scenario.local "a.md5"); EvRetr (Scenario.remote "a.md5");
       EvLog WARNING "%s, sleeping 5 seconds" ["error_temp"];
       EvSleep 5;
       EvLog WARNING "retry..." [];
       EvConnect;
       EvList Scenario.sd; EvGlob mirror_dir "*.md5";
       EvList Scenario.sd; EvGlob mirror_dir "*.gz";
       EvLog INFO "start download %s" ["pubchem/Compound/CURRENT-Full/SDF/a.gz"];
       EvCreate (Scenario.local "a.gz"); EvRetr (Scenario.remote "a.gz");
       EvLog INFO "Downloaded %s" ["mirror/pubchem/Compound/CURRENT-Full/SDF/a.gz"];
       EvClose;
       EvList Scenario.sd; EvGlob mirror_dir "*.gz";
       EvClose].
Proof. vm_compute. done. Qed.

(** ** The extraction pipeline, one file at a time *)

Lemma length_take_str k s : String.length (Str.take k s) = min k (String.length s).
Proof.
  revert s. induction k as [|k IH]; intros s; simpl; [done|].
  destruct s; simpl; [done|]. by rewrite IH.
Qed.

Lemma append_empty_r s : s +:+ "" = s.
Proof.
  induction s as [|a s IH]; [done|].
  change (String a (s +:+ "") = String a s). by rewrite IH.
Qed.

(** The decompressed sibling of an archive is another path. *)
Lemma with_suffix_gz file :
  suffix file = ".gz" →
  ∃ target, with_suffix file "" = Some target ∧ target ≠ file.
Proof.
  intros Hgz. assert (name file ≠ "") as Hnm by (apply suffix_nonempty_name; by rewrite Hgz).
  unfold with_suffix. apply String.eqb_neq in Hnm as Hnm'. rewrite Hnm', Hgz.
  eexists. split; [done|]. intros Heq. apply (f_equal name) in Heq.
  unfold name in Heq at 1. simpl in Heq. rewrite List.last_last, append_empty_r in Heq.
  apply (f_equal String.length) in Heq. rewrite length_take_str in Heq.
  destruct (name file); simpl in *; [done|lia].
Qed.

Ltac run :=
  repeat first
    [ rewrite bind_run | rewrite ret_run
    | progress unfold get_fs, put_fs, emit, raise, open_wb, write, log
    | progress cbn beta iota | progress cbn [fs faults trace fst snd] ].

Section ExtractFile.

Variable gzip_read : bytes → exn + bytes.
Variable handler : Path → gmap Path bytes → option exn.

Lemma gunzip_content_run file target packed w :
  with_suffix file "" = Some target →
  target ≠ file →
  fs w !! file = Some packed →
  gunzip_content gzip_read file w
  = match gzip_read packed with
    | inl e => (Raised e, MkWorld (<[target := []]> (fs w)) (faults w) (trace w))
    | inr data => (Ok target, MkWorld (<[target := data]> (fs w)) (faults w) (trace w))
    end.
Proof.
  intros Ht Hne Hf. unfold gunzip_content. rewrite Ht.
  run. rewrite lookup_insert_ne, Hf by done.
  destruct (gzip_read packed) as [e|data]; run; [done|].
  by rewrite lookup_insert_eq, insert_insert_eq.
Qed.

(** A truncated archive: the error is logged, the file is skipped, and
    the empty sibling stays. *)
Lemma extract_file_truncated file target packed w :
  suffix file = ".gz" →
  with_suffix file "" = Some target →
  fs w !! file = Some packed →
  gzip_read packed = inl EOFError →
  extract_file gzip_read handler file w
  = (Ok tt, MkWorld (<[target := []]> (fs w)) (faults w)
                    (trace w ++ [EvLog ERROR "File %s: %s" [to_string file; "EOFError"]])).
Proof.
  intros Hgz Ht Hf Hread.
  destruct (with_suffix_gz file Hgz) as (t & Ht' & Hne).
  rewrite Ht in Ht'. injection Ht' as <-.
  unfold extract_file, try_except. rewrite bool_decide_eq_true_2 by done.
  rewrite bind_run, (gunzip_content_run file target packed) by done.
  rewrite Hread. done.
Qed.

(** An archive the decoder refuses otherwise: the error leaves the
    walk, and the empty sibling stays. *)
Lemma extract_file_invalid file target packed e w :
  suffix file = ".gz" →
  with_suffix file "" = Some target →
  fs w !! file = Some packed →
  gzip_read packed = inl e →
  e ≠ EOFError →
  extract_file gzip_read handler file w
  = (Raised e, MkWorld (<[target := []]> (fs w)) (faults w) (trace w)).
Proof.
  intros Hgz Ht Hf Hread He.
  destruct (with_suffix_gz file Hgz) as (t & Ht' & Hne).
  rewrite Ht in Ht'. injection Ht' as <-.
  unfold extract_file, try_except. rewrite bool_decide_eq_true_2 by done.
  rewrite bind_run, (gunzip_content_run file target packed) by done.
  rewrite Hread. by rewrite bool_decide_eq_false_2.
Qed.

(** A well-formed archive and a handler that returns: the handler is
    called once, on the sibling, which is then removed. *)
Lemma extract_file_handled file target packed data w :
  suffix file = ".gz" →
  with_suffix file "" = Some target →
  fs w !! file = Some packed →
  gzip_read packed = inr data →
  handler target (<[target := data]> (fs w)) = None →
  extract_file gzip_read handler file w
  = (Ok tt, MkWorld (delete target (fs w)) (faults w)
                    (trace w ++ [EvHandler target; EvUnlink target])).
Proof.
  intros Hgz Ht Hf Hread Hh.
  destruct (with_suffix_gz file Hgz) as (t & Ht' & Hne).
  rewrite Ht in Ht'. injection Ht' as <-.
  unfold extract_file, try_except. rewrite bool_decide_eq_true_2 by done.
  rewrite bind_run, (gunzip_content_run file target packed) by done.
  rewrite Hread. unfold call_handler. run. rewrite Hh. run.
  unfold unlink_missing_ok, try_except, unlink. run.
  rewrite lookup_insert_eq. run.
  by rewrite delete_insert_eq, <-app_assoc.
Qed.

(** A well-formed archive and a handler that raises: the sibling, with
    the decompressed bytes, stays; the error leaves the walk unless it
    is an [EOFError], which is logged as if the archive were
    truncated. *)
Lemma extract_file_handler_raises file target packed data e w :
  suffix file = ".gz" →
  with_suffix file "" = Some target →
  fs w !! file = Some packed →
  gzip_read packed = inr data →
  handler target (<[target := data]> (fs w)) = Some e →
  extract_file gzip_read handler file w
  = if bool_decide (e = EOFError)
    then (Ok tt, MkWorld (<[target := data]> (fs w)) (faults w)
                         (trace w ++ [EvHandler target;
                                      EvLog ERROR "File %s: %s" [to_string file; "EOFError"]]))
    else (Raised e, MkWorld (<[target := data]> (fs w)) (faults w)
                            (trace w ++ [EvHandler target])).
Proof.
  intros Hgz Ht Hf Hread Hh.
  destruct (with_suffix_gz file Hgz) as (t & Ht' & Hne).
  rewrite Ht in Ht'. injection Ht' as <-.
  unfold extract_file, try_except. rewrite bool_decide_eq_true_2 by done.
  rewrite bind_run, (gunzip_content_run file target packed) by done.
  rewrite Hread. unfold call_handler. run. rewrite Hh. run.
  case_bool_decide as He; [|done]. subst e. run.
  by rewrite <-app_assoc.
Qed.

(** Files that are not archives are not touched. *)
Lemma extract_file_other file w :
  suffix file ≠ ".gz" → extract_file gzip_read handler file w = (Ok tt, w).
Proof.
  intros H. unfold extract_file. by rewrite bool_decide_eq_false_2.
Qed.

End ExtractFile.

(** ** The extraction scenarios *)

(** C2 — The temporary sibling outlives a failure. On a root holding
    one truncated archive, [extract] returns normally and the
    decompressed sibling [bad.sdf], created empty before the decoder
    failed, is still there. On a root holding one well-formed archive,
    with a handler that raises, the error leaves [extract] and the
    sibling [good.sdf], holding the decompressed bytes, is still there.
    Only when the handler returns is the sibling removed. *)
Theorem temporary_sibling_left :
  (let run := extract gzip_stored handler_ok extractor root_truncated in
   run.1 = Ok tt
   ∧ fs run.2 !! Path_of_string "mirror/bad.sdf" = Some []
   ∧ trace run.2 = [EvLog ERROR "File %s: %s" ["mirror/bad.sdf.gz"; "EOFError"]])
  ∧ (let run := extract gzip_stored handler_failing extractor root_good in
     run.1 = Raised ValueError
     ∧ fs run.2 !! Path_of_string "mirror/good.sdf" = Some (Scenario.b "abc")
     ∧ trace run.2 = [EvHandler (Path_of_string "mirror/good.sdf")])
  ∧ (let run := extract gzip_stored handler_ok extractor root_good in
     run.1 = Ok tt
     ∧ fs run.2 !! Path_of_string "mirror/good.sdf" = None
     ∧ trace run.2 = [EvHandler (Path_of_string "mirror/good.sdf");
                      EvUnlink (Path_of_string "mirror/good.sdf")]).
Proof. vm_compute. done. Qed.

(** C6, as stated, fails for an invalid archive: on a root holding a
    well-formed archive and a file that is not gzip, the decoder's
    [BadGzipFile] is not caught; it ends the walk and reaches the
    caller, and no error line is logged for the file. *)
Lemma invalid_archive_counterexample :
  let run := extract gzip_stored handler_ok extractor root_good_invalid in
  gzip_stored archive_invalid = inl BadGzipFile
  ∧ run.1 = Raised BadGzipFile
  ∧ error_logs (trace run.2) = [].
Proof. vm_compute. done. Qed.

(** C6, amended — When the extraction root holds one well-formed
    archive and one truncated archive (its decoding raises [EOFError]),
    and the handler returns, [extract] returns normally, calls the
    handler exactly once, on the decompressed well-formed file, and
    logs one error, for the truncated archive; both archives are left
    as they were. This holds for every decoder, every such handler and
    all contents. *)
Theorem truncated_archive_skipped
    (gzip_read : bytes → exn + bytes)
    (handler : Path → gmap Path bytes → option exn) (dgood dbad out : bytes) :
  gzip_read dgood = inr out →
  gzip_read dbad = inl EOFError →
  (∀ p f, handler p f = None) →
  let run := extract gzip_read handler extractor (root_two dgood dbad) in
  run.1 = Ok tt
  ∧ handler_calls (trace run.2) = ["mirror/good.sdf"]
  ∧ error_logs (trace run.2) = [["mirror/bad.sdf.gz"; "EOFError"]]
  ∧ fs run.2 !! Path_of_string "mirror/good.sdf.gz" = Some dgood
  ∧ fs run.2 !! Path_of_string "mirror/bad.sdf.gz" = Some dbad.
Proof.
  intros Hgood Hbad Hh run. unfold run, extract. run.
  assert (walk (fs (root_two dgood dbad)) (chembl_dir extractor)
          = [(Path_of_string "mirror", ["good.sdf.gz"; "bad.sdf.gz"])]) as ->
    by (vm_compute; reflexivity).
  rewrite for_each_cons. run.
  assert (cast_path (Path_of_string "mirror") ["good.sdf.gz"; "bad.sdf.gz"]
          = [Path_of_string "mirror/good.sdf.gz"; Path_of_string "mirror/bad.sdf.gz"]) as ->
    by (vm_compute; reflexivity).
  rewrite for_each_cons. run.
  rewrite (extract_file_handled gzip_read handler _ (Path_of_string "mirror/good.sdf") dgood out);
    [|vm_compute; reflexivity..|done|apply Hh].
  run. rewrite for_each_cons. run.
  rewrite (extract_file_truncated gzip_read handler _ (Path_of_string "mirror/bad.sdf") dbad);
    [|vm_compute; reflexivity..|done].
  run. rewrite !for_each_nil. run.
  split_and!; [done|done|done|vm_compute; reflexivity..].
Qed.

Lemma truncated_archive_skipped_witness :
  let run := extract gzip_stored handler_ok extractor
               (root_two archive_abc archive_truncated) in
  gzip_stored archive_abc = inr (Scenario.b "abc")
  ∧ gzip_stored archive_truncated = inl EOFError
  ∧ (∀ p f, handler_ok p f = None)
  ∧ run.1 = Ok tt
  ∧ handler_calls (trace run.2) = ["mirror/good.sdf"]
  ∧ error_logs (trace run.2) = [["mirror/bad.sdf.gz"; "EOFError"]]
  ∧ fs run.2 !! Path_of_string "mirror/good.sdf.gz" = Some archive_abc
  ∧ fs run.2 !! Path_of_string "mirror/bad.sdf.gz" = Some archive_truncated.
Proof.
  intros run.
  assert (gzip_stored archive_abc = inr (Scenario.b "abc")) as Hgood by reflexivity.
  assert (gzip_stored archive_truncated = inl EOFError) as Hbad by reflexivity.
  assert (∀ p f, handler_ok p f = None) as Hh by reflexivity.
  split_and!; [exact Hgood|exact Hbad|exact Hh|..];
    apply (truncated_archive_skipped gzip_stored handler_ok
             archive_abc archive_truncated (Scenario.b "abc") Hgood Hbad Hh).
Defined.

(** ** An interrupted transfer *)

(** C8 — A partial file passes for a complete one. The transfer of
    [a.gz] is cut after three bytes: the pass logs the warning,
    restarts, finds [a.gz] in the local inventory and returns normally,
    leaving the three bytes at the destination. A further pass, with no
    fault at all, finds nothing missing and transfers nothing: the
    mirror keeps a file that is not the remote file. *)
Theorem partial_file_masquerades :
  interrupted_pass.1 = Ok tt
  ∧ fs interrupted_pass.2 !! Scenario.local "a.gz" = Some (Scenario.b "rem")
  ∧ srv_data (Scenario.server ["a.gz"]) (Scenario.remote "a.gz") = Scenario.b "remote a.gz"
  ∧ transfers (trace interrupted_pass.2) = ["pubchem/Compound/CURRENT-Full/SDF/a.gz"]
  ∧ diff_names Scenario.loader (fs interrupted_pass.2) Scenario.sd
               (srv_list (Scenario.server ["a.gz"]) Scenario.sd) "gz" = ∅
  ∧ pass_after_interruption.1 = Ok tt
  ∧ transfers (trace pass_after_interruption.2) = []
  ∧ fs pass_after_interruption.2 !! Scenario.local "a.gz" = Some (Scenario.b "rem").
Proof.
  split_and!; vm_compute; reflexivity.
Qed.

(* ===================================================================== *)
(** * Further properties of the code *)
(* ===================================================================== *)

(** ** Listing entries and their directory prefix *)

Lemma split_on_nonempty sep s : Str.split_on sep s ≠ [].
Proof.
  destruct s as [|c s]; simpl; [done|].
  destruct (Ascii.eqb c sep); [done|].
  by destruct (Str.split_on sep s).
Qed.

Lemma split_on_app sep a b :
  Str.split_on sep (a +:+ String sep b) = Str.split_on sep a ++ Str.split_on sep b.
Proof.
  induction a as [|c a IH].
  - change (Str.split_on sep (String sep b) = [""] ++ Str.split_on sep b).
    simpl. by rewrite (proj2 (Ascii.eqb_eq sep sep) eq_refl).
  - change (Str.split_on sep (String c (a +:+ String sep b))
            = Str.split_on sep (String c a) ++ Str.split_on sep b).
    simpl. rewrite IH. destruct (Ascii.eqb c sep); [done|].
    pose proof (split_on_nonempty sep a). by destruct (Str.split_on sep a).
Qed.

(** [Path(d + "/" + x)] has the components of [d] followed by those of
    [x]. *)
Lemma parts_of_prefixed d x :
  parts (Path_of_string (d +:+ "/" +:+ x))
  = parts (Path_of_string d) ++ parts (Path_of_string x).
Proof.
  unfold Path_of_string. cbn [parts].
  change (d +:+ "/" +:+ x) with (d +:+ String slash x).
  by rewrite split_on_app, List.filter_app.
Qed.

Lemma name_of_prefixed d x :
  parts (Path_of_string x) ≠ [] →
  name (Path_of_string (d +:+ "/" +:+ x)) = name (Path_of_string x).
Proof.
  intros Hx. unfold name. rewrite parts_of_prefixed.
  destruct (parts (Path_of_string x)) as [|c cs] using rev_ind; [done|].
  by rewrite app_assoc, !List.last_last.
Qed.

(** X2 — The per-class diff looks at the final component of a listing
    entry only: putting a directory prefix in front of every entry of
    a listing (entries that name something, i.e. have a component)
    changes neither the set of names of a class nor the missing-set. *)
Theorem class_sources_prefix_insensitive self f sd d l ext_ :
  Forall (λ x, parts (Path_of_string x) ≠ []) l →
  class_sources ((λ x, d +:+ "/" +:+ x) <$> l) ext_ = class_sources l ext_
  ∧ diff_names self f sd ((λ x, d +:+ "/" +:+ x) <$> l) ext_
    = diff_names self f sd l ext_.
Proof.
  intros Hl. rewrite Forall_forall in Hl.
  assert (class_sources ((λ x, d +:+ "/" +:+ x) <$> l) ext_ = class_sources l ext_) as Heq.
  { apply set_eq. intros n. rewrite !elem_of_class_sources.
    split; intros [Hs (x & Hx & ->)]; (split; [done|]).
    - apply list_elem_of_fmap in Hx as (y & -> & Hy).
      exists y. split; [done|]. by apply name_of_prefixed, Hl.
    - exists (d +:+ "/" +:+ x). split; [apply list_elem_of_fmap; eauto|].
      symmetry. by apply name_of_prefixed, Hl. }
  split; [done|]. unfold diff_names. by rewrite Heq.
Qed.

Lemma class_sources_prefix_insensitive_witness :
  let l := ["a.gz"; "sub/b.md5"] in
  Forall (λ x, parts (Path_of_string x) ≠ []) l
  ∧ class_sources ((λ x, "pubchem/X" +:+ "/" +:+ x) <$> l) "gz" = class_sources l "gz"
  ∧ diff_names Scenario.loader ∅ Scenario.sd ((λ x, "pubchem/X" +:+ "/" +:+ x) <$> l) "gz"
    = diff_names Scenario.loader ∅ Scenario.sd l "gz".
Proof.
  intros l.
  assert (Forall (λ x, parts (Path_of_string x) ≠ []) l) as Hl
    by (repeat constructor; discriminate).
  split; [exact Hl|].
  exact (class_sources_prefix_insensitive Scenario.loader ∅ Scenario.sd "pubchem/X" l "gz" Hl).
Defined.

(** ** The loader and its directories *)

Lemma path_eq p q : root p = root q → parts p = parts q → p = q.
Proof. destruct p, q. simpl. by intros -> ->. Qed.


(** ** The remote filter and the local scan *)

Lemma length_append_str a b : String.length (a +:+ b) = String.length a + String.length b.
Proof.
  induction a as [|c a IH]; [done|].
  change (S (String.length (a +:+ b)) = S (String.length a) + String.length b). lia.
Qed.

Lemma take_drop_str k s : Str.take k s +:+ Str.drop k s = s.
Proof.
  revert s. induction k as [|k IH]; intros s; [done|].
  destruct s as [|c s]; [done|].
  change (String c (Str.take k s +:+ Str.drop k s) = String c s). by rewrite IH.
Qed.

Lemma drop_str_app_length a b : Str.drop (String.length a) (a +:+ b) = b.
Proof. induction a as [|c a IH]; [by destruct b|]. exact IH. Qed.

Lemma rfind_absent c s : Str.has_char c s = false → Str.rfind c s = None.
Proof.
  induction s as [|a s IH]; [done|]. simpl.
  intros [Ha Hs]%orb_false_iff. by rewrite (IH Hs), Ha.
Qed.

Lemma rfind_last c a b :
  Str.has_char c b = false → Str.rfind c (a +:+ String c b) = Some (String.length a).
Proof.
  intros Hb. induction a as [|x a IH].
  - change (Str.rfind c (String c b) = Some 0). simpl.
    by rewrite (rfind_absent c b Hb), (proj2 (Ascii.eqb_eq c c) eq_refl).
  - change (Str.rfind c (String x (a +:+ String c b)) = Some (S (String.length a))).
    simpl. by rewrite IH.
Qed.

Lemma endswith_split nm s :
  Str.endswith nm s = true →
  nm = Str.take (String.length nm - String.length s) nm +:+ s
  ∧ String.length s ≤ String.length nm.
Proof.
  unfold Str.endswith. rewrite andb_true_iff, Nat.leb_le, String.eqb_eq.
  intros [Hle Hs]. split; [|done].
  rewrite <-Hs at 2. by rewrite take_drop_str.
Qed.

(** X3 — The remote filter ([Path.suffix]) and the local scan (the
    glob pattern) select the same names: for an extension without a
    dot, a name has the suffix of the class exactly when it ends with
    the dot and the extension and has at least one character before
    them. The only names the scan takes and the filter rejects are the
    bare [".ext"]. *)
Theorem suffix_matches_glob nm ext_ :
  Str.has_char dot ext_ = false →
  ext_ ≠ "" →
  suffix_of_name nm = "." +:+ ext_
  ↔ Str.endswith nm ("." +:+ ext_) = true ∧ String.length ext_ + 1 < String.length nm.
Proof.
  intros Hdot Hext. split.
  - intros Hs. split; [by apply suffix_endswith|].
    unfold suffix_of_name in Hs.
    destruct (Str.rfind dot nm) as [i|] eqn:Hi; [|done].
    destruct (Nat.ltb 0 i) eqn:H0; [|done]. apply Nat.ltb_lt in H0.
    destruct (Nat.ltb i (String.length nm - 1)); [|done]. simpl in Hs.
    apply (f_equal String.length) in Hs. rewrite length_drop_str in Hs.
    change (String.length ("." +:+ ext_)) with (S (String.length ext_)) in Hs.
    apply rfind_lt in Hi. lia.
  - intros [[Hnm Hle]%endswith_split Hlen].
    set (pre := Str.take _ nm) in Hnm. clearbody pre. subst nm.
    change (pre +:+ "." +:+ ext_) with (pre +:+ String dot ext_) in *.
    rewrite length_append_str in Hlen. cbn [String.length] in Hlen.
    assert (String.length ext_ ≠ 0) by by destruct ext_.
    unfold suffix_of_name.
    rewrite (rfind_last dot pre ext_ Hdot), length_append_str. cbn [String.length].
    replace (Nat.ltb 0 (String.length pre)) with true
      by (symmetry; apply Nat.ltb_lt; lia).
    replace (Nat.ltb (String.length pre) (String.length pre + S (String.length ext_) - 1))
      with true by (symmetry; apply Nat.ltb_lt; lia).
    apply drop_str_app_length.
Qed.

Lemma suffix_matches_glob_witness :
  Str.has_char dot "gz" = false
  ∧ "gz" ≠ ""
  ∧ (suffix_of_name "a.sdf.gz" = "." +:+ "gz"
     ↔ Str.endswith "a.sdf.gz" ("." +:+ "gz") = true
       ∧ String.length "gz" + 1 < String.length "a.sdf.gz").
Proof.
  assert (Str.has_char dot "gz" = false) as Hdot by reflexivity.
  assert ("gz" ≠ "") as Hext by discriminate.
  split_and!; [exact Hdot|exact Hext|].
  exact (suffix_matches_glob "a.sdf.gz" "gz" Hdot Hext).
Defined.

(** ** The targets of a pass *)

Lemma NoDup_diff_targets self f sd l ext_ : NoDup (diff_targets self f sd l ext_).
Proof.
  unfold diff_targets. destruct l as [|first rest]; [constructor|].
  apply NoDup_fmap_2_strong; [|apply NoDup_elements].
  intros n1 n2 Hn1%elem_of_elements Hn2%elem_of_elements Heq.
  apply diff_names_subseteq, class_source_single in Hn1, Hn2.
  unfold join_str in Heq. rewrite Hn1, Hn2 in Heq.
  apply (f_equal name) in Heq. by rewrite !name_join_single in Heq.
Qed.

(** X4 — A pass never starts the same download twice from one scan:
    the diff of a class yields each target once, even when the listing
    repeats entries, and the targets of two different classes are
    different paths. *)
Theorem diff_targets_distinct self f sd l ext1 ext2 :
  ext1 ≠ ext2 →
  NoDup (diff_targets self f sd l ext1 ++ diff_targets self f sd l ext2).
Proof.
  intros Hext. apply NoDup_app. split_and!; [apply NoDup_diff_targets| |apply NoDup_diff_targets].
  intros t [Hs1 _]%diff_target_suffix [Hs2 _]%diff_target_suffix.
  rewrite Hs1 in Hs2. apply Hext. by injection Hs2.
Qed.

Lemma diff_targets_distinct_witness :
  let l := srv_list (Scenario.server ["a.gz"; "a.md5"; "a.gz"; "b.gz"]) Scenario.sd in
  "md5" ≠ "gz"
  ∧ NoDup (diff_targets Scenario.loader ∅ Scenario.sd l "md5"
           ++ diff_targets Scenario.loader ∅ Scenario.sd l "gz").
Proof.
  intros l. assert ("md5" ≠ "gz") as Hext by discriminate.
  split; [exact Hext|].
  exact (diff_targets_distinct Scenario.loader ∅ Scenario.sd l "md5" "gz" Hext).
Defined.

(** X5 — The extension guard of the download. A file whose destination
    has no supported suffix is ignored: nothing is created, transferred
    or logged. In a pass the guard never fires: the destination of
    every target the diff yields for a supported class has the suffix
    of that class. *)
Theorem extension_guard self srv fuel f sd l ext_ t :
  ext_ ∈ sup_extensions →
  t ∈ diff_targets self f sd l (Str.drop 1 ext_) →
  suffix (join (target_dir self) t) = ext_
  ∧ ∀ filename tries w,
      suffix (join (target_dir self) filename) ∉ sup_extensions →
      download_file self srv (S fuel) filename tries w = (Ok tt, w).
Proof.
  intros Hext [_ Hs]%diff_target_suffix. split.
  - by rewrite Hs, supported_class.
  - intros filename tries w Hno. simpl. by rewrite bool_decide_eq_false_2.
Qed.

Lemma extension_guard_witness :
  let self := Scenario.loader in
  let l := srv_list four_files Scenario.sd in
  let t := Scenario.remote "a.md5" in
  ".md5" ∈ sup_extensions
  ∧ t ∈ diff_targets self ∅ Scenario.sd l (Str.drop 1 ".md5")
  ∧ suffix (join (target_dir self) t) = ".md5"
  ∧ ∀ filename tries w,
      suffix (join (target_dir self) filename) ∉ sup_extensions →
      download_file self four_files 1 filename tries w = (Ok tt, w).
Proof.
  intros self l t.
  assert (".md5" ∈ sup_extensions) as Hext by (unfold sup_extensions; left).
  assert (t ∈ diff_targets self ∅ Scenario.sd l (Str.drop 1 ".md5")) as Ht
    by (apply (bool_decide_unpack _); vm_compute; exact I).
  split_and!; [exact Hext|exact Ht|..];
    apply (extension_guard self four_files 0 ∅ Scenario.sd l ".md5" t Hext Ht).
Defined.

(** ** The mirror after a pass *)





Lemma same_parent_name p q :
  parts p ≠ [] → parts q ≠ [] → parent p = parent q → name p = name q → p = q.
Proof.
  destruct p as [rp pp], q as [rq pq]. unfold parent, name. simpl.
  intros Hp Hq [= -> Hrl] Hn. f_equal.
  rewrite (List.app_removelast_last "" Hp), (List.app_removelast_last "" Hq).
  by rewrite Hrl, Hn.
Qed.

(** An entry of a listing with the directory prefix is the source
    directory joined with its name. *)
Lemma listed_path self srv x :
  flat_listing self srv →
  x ∈ srv_list srv (source_dir_of self) →
  name (Path_of_string x) ≠ "" →
  Path_of_string x
  = join (Path_of_string (source_dir_of self)) (MkPath false [name (Path_of_string x)]).
Proof.
  intros Hflat Hx Hn. specialize (Hflat x Hx).
  assert (parts (Path_of_string x) ≠ []) as Hparts.
  { intros Hnil. unfold name in Hn. by rewrite Hnil in Hn. }
  rewrite <-Hflat. apply path_eq; simpl; [done|].
  by apply List.app_removelast_last.
Qed.

Lemma listed_name_in_class l x ext_ :
  x ∈ l →
  suffix (Path_of_string x) = "." +:+ ext_ →
  name (Path_of_string x) ∈ class_sources l ext_.
Proof.
  intros Hx Hs. apply elem_of_class_sources. split; [|eauto].
  assert (name (Path_of_string x) ≠ "") as Hn
    by (apply suffix_nonempty_name; by rewrite Hs).
  unfold suffix at 1.
  by rewrite (Path_of_string_part x _ (name_in_parts _ Hn)).
Qed.

(** The local destination of a listed entry, as the scan finds it. *)
Lemma listed_destination self srv f x ext_ :
  flat_listing self srv →
  x ∈ srv_list srv (source_dir_of self) →
  suffix (Path_of_string x) = "." +:+ ext_ →
  name (Path_of_string x) ∈ class_targets self f (source_dir_of self) ext_
  ↔ is_Some (f !! join (target_dir self) (Path_of_string x)).
Proof.
  intros Hflat Hx Hs.
  assert (name (Path_of_string x) ≠ "") as Hn
    by (apply suffix_nonempty_name; by rewrite Hs).
  rewrite (listed_path self srv x Hflat Hx Hn) at 2.
  destruct (local_destination (target_dir self) (Path_of_string (source_dir_of self))
              (name (Path_of_string x))) as (Hparts & Hname & Hparent).
  split.
  - intros (p & Hp & Hpp & Hpar & _ & Hnm)%elem_of_class_targets.
    replace (join _ _) with p; [done|].
    apply same_parent_name; [done..| |by rewrite Hname].
    by rewrite Hpar, Hparent.
  - intros Hsome. eapply downloaded_is_seen; [|done].
    by apply listed_name_in_class.
Qed.

(** X7 — When a pass returns normally, every listed entry of a
    supported class has a file at its place in the mirror, whatever
    happened on the way (faults, restarts). The listing is that of the
    source directory, each entry carrying the directory prefix. *)
Theorem listed_files_present self srv fuel w w' x :
  flat_listing self srv →
  full_download self srv fuel w = (Ok tt, w') →
  x ∈ srv_list srv (source_dir_of self) →
  suffix (Path_of_string x) ∈ sup_extensions →
  is_Some (fs w' !! join (target_dir self) (Path_of_string x)).
Proof.
  intros Hflat Hrun Hx Hsup.
  apply (full_download_post self srv fuel Hflat) in Hrun as [_ Hm]; [|done].
  specialize (Hm eq_refl _ Hsup).
  assert (suffix (Path_of_string x) = "." +:+ Str.drop 1 (suffix (Path_of_string x))) as Hs
    by by rewrite supported_class.
  apply (listed_destination self srv (fs w') x _ Hflat Hx Hs).
  apply Hm. by apply listed_name_in_class.
Qed.

Lemma listed_files_present_witness :
  let self := Scenario.loader in
  let srv := Scenario.server ["a.gz"; "a.md5"] in
  let w := Scenario.world [] [None; Some (NetTemp, 3)] in
  let w' := first_pass.2 in
  let x := Scenario.sd +:+ "/" +:+ "a.md5" in
  flat_listing self srv
  ∧ full_download self srv 4 w = (Ok tt, w')
  ∧ x ∈ srv_list srv (source_dir_of self)
  ∧ suffix (Path_of_string x) ∈ sup_extensions
  ∧ is_Some (fs w' !! join (target_dir self) (Path_of_string x)).
Proof.
  intros self srv w w' x.
  assert (flat_listing self srv) as Hflat
    by (apply flat_listing_scenario; repeat constructor).
  assert (full_download self srv 4 w = (Ok tt, w')) as Hrun.
  { change (first_pass = (Ok tt, first_pass.2)).
    apply pair_eta_fst. vm_compute. reflexivity. }
  assert (x ∈ srv_list srv (source_dir_of self)) as Hx
    by (apply (bool_decide_unpack _); vm_compute; exact I).
  assert (suffix (Path_of_string x) ∈ sup_extensions) as Hsup
    by (apply (bool_decide_unpack _); vm_compute; exact I).
  split_and!; [exact Hflat|exact Hrun|exact Hx|exact Hsup|].
  exact (listed_files_present self srv 4 w w' x Hflat Hrun Hx Hsup).
Defined.



(** ** Back-offs and sessions *)



















(** ** What the extraction touches *)

Lemma gunzip_content_missing gzip_read file target w :
  with_suffix file "" = Some target →
  target ≠ file →
  fs w !! file = None →
  gunzip_content gzip_read file w
  = (Raised FileNotFoundError, MkWorld (<[target := []]> (fs w)) (faults w) (trace w)).
Proof.
  intros Ht Hne Hf. unfold gunzip_content. rewrite Ht.
  run. by rewrite lookup_insert_ne, Hf by done.
Qed.

(** One file of the walk: its events concern its sibling only, and no
    other path changes. *)
Lemma extract_file_effect gzip_read handler file target w :
  suffix file = ".gz" →
  with_suffix file "" = Some target →
  let run := extract_file gzip_read handler file w in
  (∃ T, trace run.2 = trace w ++ T
        ∧ Forall (λ e, ∀ t, e = EvHandler t ∨ e = EvUnlink t → t = target) T)
  ∧ ∀ p, p ≠ target → fs run.2 !! p = fs w !! p.
Proof.
  intros Hgz Ht run. subst run.
  destruct (with_suffix_gz file Hgz) as (t & Ht' & Hne).
  rewrite Ht in Ht'. injection Ht' as <-.
  assert (∀ e t, e = EvHandler target ∨ e = EvUnlink target →
                 e = EvHandler t ∨ e = EvUnlink t → t = target) as Hev
    by (intros e t [-> | ->] [[=]|[=]]; done).
  assert (∀ args e t, e = EvLog ERROR "File %s: %s" args →
                      e = EvHandler t ∨ e = EvUnlink t → t = target) as Hlog
    by (intros args e t -> [[=]|[=]]).
  destruct (fs w !! file) as [packed|] eqn:Hf; cycle 1.
  { unfold extract_file, try_except. rewrite bool_decide_eq_true_2 by done.
    rewrite bind_run, (gunzip_content_missing gzip_read file target) by done.
    rewrite bool_decide_eq_false_2 by done. simpl. split.
    - exists []. by rewrite app_nil_r.
    - intros p Hp. by rewrite lookup_insert_ne. }
  destruct (gzip_read packed) as [e|data] eqn:Hread.
  - destruct (decide (e = EOFError)) as [->|He].
    + rewrite (extract_file_truncated gzip_read handler file target packed) by done.
      simpl. split.
      * eexists. split; [done|]. repeat constructor. eauto.
      * intros p Hp. by rewrite lookup_insert_ne.
    + rewrite (extract_file_invalid gzip_read handler file target packed e) by done.
      simpl. split.
      * exists []. by rewrite app_nil_r.
      * intros p Hp. by rewrite lookup_insert_ne.
  - destruct (handler target (<[target := data]> (fs w))) as [e|] eqn:Hh.
    + rewrite (extract_file_handler_raises gzip_read handler file target packed data e)
        by done.
      case_bool_decide; simpl; (split; [|intros p Hp; by rewrite lookup_insert_ne]).
      * eexists. split; [done|]. repeat constructor; eauto.
      * eexists. split; [done|]. repeat constructor; eauto.
    + rewrite (extract_file_handled gzip_read handler file target packed data) by done.
      simpl. split.
      * eexists. split; [done|]. repeat constructor; eauto.
      * intros p Hp. by rewrite lookup_delete_ne.
Qed.

(** X11 — One archive of the walk, all outcomes. The archive itself
    and every path but its decompressed sibling keep their bytes. What
    was at the sibling path before is lost in every case: after a
    decoding error the sibling is empty; after a handler error it
    holds the decompressed bytes; after a normal handler return it is
    gone. The handler is called once if the archive decodes and not at
    all otherwise, and only an [EOFError], of the decoder or of the
    handler, is absorbed. *)
Theorem extract_file_outcome gzip_read handler file target packed w :
  suffix file = ".gz" →
  with_suffix file "" = Some target →
  fs w !! file = Some packed →
  let run := extract_file gzip_read handler file w in
  let absorbed := λ e, if bool_decide (e = EOFError) then Ok tt else Raised e in
  fs run.2 !! file = Some packed
  ∧ (∀ p, p ≠ target → fs run.2 !! p = fs w !! p)
  ∧ match gzip_read packed with
    | inl e =>
        run.1 = absorbed e
        ∧ fs run.2 !! target = Some []
        ∧ handler_calls (trace run.2) = handler_calls (trace w)
    | inr data =>
        handler_calls (trace run.2) = handler_calls (trace w) ++ [to_string target]
        ∧ match handler target (<[target := data]> (fs w)) with
          | Some e => run.1 = absorbed e ∧ fs run.2 !! target = Some data
          | None => run.1 = Ok tt ∧ fs run.2 !! target = None
          end
    end.
Proof.
  intros Hgz Ht Hf run absorbed.
  destruct (extract_file_effect gzip_read handler file target w Hgz Ht) as [_ Hkeep].
  destruct (with_suffix_gz file Hgz) as (t & Ht' & Hne).
  rewrite Ht in Ht'. injection Ht' as <-.
  split; [by rewrite <-Hf; apply Hkeep|]. split; [done|].
  subst run absorbed. cbn beta.
  destruct (gzip_read packed) as [e|data] eqn:Hread.
  - destruct (decide (e = EOFError)) as [->|He].
    + rewrite (extract_file_truncated gzip_read handler file target packed) by done.
      simpl. rewrite lookup_insert_eq. unfold handler_calls.
      rewrite omap_app. simpl. by rewrite app_nil_r.
    + rewrite (extract_file_invalid gzip_read handler file target packed e) by done.
      simpl. by rewrite lookup_insert_eq, bool_decide_eq_false_2.
  - destruct (handler target (<[target := data]> (fs w))) as [e|] eqn:Hh.
    + rewrite (extract_file_handler_raises gzip_read handler file target packed data e)
        by done.
      case_bool_decide; simpl; rewrite lookup_insert_eq; unfold handler_calls;
        rewrite omap_app; done.
    + rewrite (extract_file_handled gzip_read handler file target packed data) by done.
      simpl. rewrite lookup_delete_eq. unfold handler_calls. by rewrite omap_app.
Qed.

Lemma extract_file_outcome_witness :
  let file := Path_of_string "mirror/good.sdf.gz" in
  let target := Path_of_string "mirror/good.sdf" in
  let w := Scenario.world [(file, archive_abc); (target, Scenario.b "notes")] [] in
  let run := extract_file gzip_stored handler_failing file w in
  let absorbed := λ e, if bool_decide (e = EOFError) then Ok tt else Raised e in
  suffix file = ".gz"
  ∧ with_suffix file "" = Some target
  ∧ fs w !! file = Some archive_abc
  ∧ fs run.2 !! file = Some archive_abc
  ∧ (∀ p, p ≠ target → fs run.2 !! p = fs w !! p)
  ∧ match gzip_stored archive_abc with
    | inl e =>
        run.1 = absorbed e
        ∧ fs run.2 !! target = Some []
        ∧ handler_calls (trace run.2) = handler_calls (trace w)
    | inr data =>
        handler_calls (trace run.2) = handler_calls (trace w) ++ [to_string target]
        ∧ match handler_failing target (<[target := data]> (fs w)) with
          | Some e => run.1 = absorbed e ∧ fs run.2 !! target = Some data
          | None => run.1 = Ok tt ∧ fs run.2 !! target = None
          end
    end.
Proof.
  intros file target w run absorbed.
  assert (suffix file = ".gz") as Hgz by reflexivity.
  assert (with_suffix file "" = Some target) as Ht by reflexivity.
  assert (fs w !! file = Some archive_abc) as Hf by (vm_compute; reflexivity).
  exact (conj Hgz (conj Ht (conj Hf
           (extract_file_outcome gzip_stored handler_failing file target archive_abc w
              Hgz Ht Hf)))).
Defined.

(** Every listing of the walk is the list of the names of the files of
    one directory. *)
Lemma walk_from_listing depth files top d names :
  (d, names) ∈ walk_from depth files top →
  names = name <$> List.filter (λ p, bool_decide (parts p ≠ []) && bool_decide (parent p = d))
                               files.
Proof.
  revert top. induction depth as [|depth IH]; intros top; simpl.
  - intros [[= -> ->]|[]%elem_of_nil]%elem_of_cons. done.
  - intros [[= -> ->]|Hin]%elem_of_cons; [done|].
    apply list_elem_of_join in Hin as (l & Hin & Hl).
    apply list_elem_of_fmap in Hl as (sub & -> & _). by eapply IH.
Qed.

(** The files the walk hands to the loop body are files of the tree. *)
Lemma walk_visits_present (f : gmap Path bytes) top d names file :
  (∀ q, is_Some (f !! q) → plain_name q) →
  (d, names) ∈ walk f top →
  file ∈ cast_path d names →
  is_Some (f !! file).
Proof.
  intros Hplain Hwalk Hfile. unfold walk in Hwalk.
  apply walk_from_listing in Hwalk as ->.
  unfold cast_path in Hfile. rewrite <-list_fmap_compose in Hfile.
  apply list_elem_of_fmap in Hfile as (q & -> & Hq).
  apply list_elem_of_In, List.filter_In in Hq as [Hq%list_elem_of_In Hcond].
  apply elem_of_keys in Hq.
  apply andb_true_iff in Hcond as [Hparts%bool_decide_eq_true Hpar%bool_decide_eq_true].
  cbn beta. unfold compose. replace (join_str d (name q)) with q; [done|].
  unfold join_str. rewrite (Hplain q Hq), <-Hpar.
  apply path_eq; simpl; [done|]. by apply List.app_removelast_last.
Qed.

Lemma extracted_from_refl f w : extracted_from f w w.
Proof. split; [|done]. exists []. by rewrite app_nil_r. Qed.

Lemma extracted_from_trans f w1 w2 w3 :
  extracted_from f w1 w2 → extracted_from f w2 w3 → extracted_from f w1 w3.
Proof.
  intros [(T1 & Ht1 & HT1) Hk1] [(T2 & Ht2 & HT2) Hk2]. split.
  - exists (T1 ++ T2). rewrite Ht2, Ht1, app_assoc. split; [done|]. by apply Forall_app.
  - intros p Hp. by rewrite Hk2, Hk1.
Qed.

(** A loop keeps a relation that is reflexive and transitive and that
    its body keeps on the elements of the list, however it ends. *)
Lemma for_each_always {A} (R : World → World → Prop) (body : A → M unit) xs :
  (∀ w, R w w) →
  (∀ w1 w2 w3, R w1 w2 → R w2 w3 → R w1 w3) →
  (∀ x, x ∈ xs → ∀ w, R w (body x w).2) →
  ∀ w, R w (for_each xs body w).2.
Proof.
  intros Hrefl Htrans. induction xs as [|x xs IH]; intros Hbody w.
  - rewrite for_each_nil. apply Hrefl.
  - rewrite for_each_cons, bind_run.
    pose proof (Hbody x ltac:(left) w) as Hx.
    destruct (body x w) as [r0 w0]. simpl in Hx.
    destruct r0 as [[]|e|]; [|done..].
    eapply Htrans; [exact Hx|]. apply IH. intros y Hy. apply Hbody. by right.
Qed.

Lemma extract_file_extracted_from gzip_read handler f file w :
  is_Some (f !! file) →
  extracted_from f w (extract_file gzip_read handler file w).2.
Proof.
  intros Hfile. destruct (decide (suffix file = ".gz")) as [Hgz|Hgz]; cycle 1.
  { rewrite extract_file_other by done. apply extracted_from_refl. }
  destruct (with_suffix_gz file Hgz) as (target & Ht & _).
  assert (sibling_of_archive f target) as Hsib by (exists file; done).
  destruct (extract_file_effect gzip_read handler file target w Hgz Ht)
    as [(T & Htr & HT) Hkeep].
  split.
  - exists T. split; [done|]. eapply Forall_impl; [exact HT|].
    intros e He t Het. by rewrite (He t Het).
  - intros p Hp. apply Hkeep. by intros ->.
Qed.

(** X12 — What the extraction touches. On a tree whose file names are
    plain names, [extract] writes and removes only decompressed
    siblings of archives that were in the tree when it started, and
    calls the handler on such siblings only, however it ends: every
    other path keeps its bytes. In particular a tree without [.gz]
    file is left as it is and the handler is never called; and a file
    that shares its path with the sibling of an archive is not
    protected. *)
Theorem extract_touches_siblings_only gzip_read handler self w :
  (∀ q, is_Some (fs w !! q) → plain_name q) →
  let run := extract gzip_read handler self w in
  (∀ p, ¬ sibling_of_archive (fs w) p → fs run.2 !! p = fs w !! p)
  ∧ ∃ T, trace run.2 = trace w ++ T
       ∧ Forall (λ e, ∀ t, e = EvHandler t ∨ e = EvUnlink t → sibling_of_archive (fs w) t) T.
Proof.
  intros Hplain run.
  assert (extracted_from (fs w) w run.2) as [HT Hkeep]; [|done].
  subst run. unfold extract. rewrite bind_run. cbn beta iota. unfold get_fs at 1. cbn beta iota.
  apply (for_each_always (extracted_from (fs w)));
    [apply extracted_from_refl|apply extracted_from_trans|].
  intros [d names] Hwalk w1.
  apply (for_each_always (extracted_from (fs w)));
    [apply extracted_from_refl|apply extracted_from_trans|].
  intros file Hfile w2. apply extract_file_extracted_from.
  by eapply walk_visits_present.
Qed.

Lemma extract_touches_siblings_only_witness :
  let w := Scenario.world [(Path_of_string "mirror/readme.txt", Scenario.b "notes");
                           (Path_of_string "mirror/good.sdf.gz", archive_abc)] [] in
  let run := extract gzip_stored handler_ok extractor w in
  (∀ q, is_Some (fs w !! q) → plain_name q)
  ∧ (∀ p, ¬ sibling_of_archive (fs w) p → fs run.2 !! p = fs w !! p)
  ∧ ∃ T, trace run.2 = trace w ++ T
       ∧ Forall (λ e, ∀ t, e = EvHandler t ∨ e = EvUnlink t → sibling_of_archive (fs w) t) T.
Proof.
  intros w run.
  assert (∀ q, is_Some (fs w !! q) → plain_name q) as Hplain.
  { intros q Hq%elem_of_dom. unfold w, Scenario.world in Hq. cbn [fs] in Hq.
    rewrite dom_list_to_map_L in Hq. cbn [fmap list_fmap fst list_to_set foldr] in Hq.
    apply elem_of_union in Hq as [->%elem_of_singleton|Hq]; [reflexivity|].
    apply elem_of_union in Hq as [->%elem_of_singleton|Hq]; [reflexivity|].
    by apply not_elem_of_empty in Hq. }
  exact (conj Hplain (extract_touches_siblings_only gzip_stored handler_ok extractor w Hplain)).
Defined.
